(** * language-salary: salary estimation, aggregation and paginated download

    A shallow embedding of [language-salary.py].  The script downloads
    programmer vacancies from two job sites (hh.ru and superjob.ru), estimates
    a ruble salary for every vacancy, and aggregates one statistics row per
    programming language.

    Layout of the development:
    - [Py]       the fragment of Python values and exceptions the script uses:
                 [None], [bool], [int], [str], [list], [dict], truthiness,
                 subscripting, [+], [//], [int * float] and [int(float)];
                 floats are IEEE 754 binary64, taken from [SpecFloat];
    - [Salary]   [predict_salary], [predict_rub_salary_hh],
                 [predict_rub_salary_sj] and [get_statistics];
    - [Fetch]    [download_vacancies_hh] and [download_vacancies_sj] as
                 state-passing loops over a scripted network;
    - [Main]     the body of the per-language loops of [main];
    - [Spec]     the rules as the specification words them, to compare with;
    - [Script]   what a script of outcomes holds: the vacancies, the
                 connection errors and the pagination field of its answers;
    - [Report]   [main]: the key from the environment, the two loops over
                 the languages, the two tables;
    - the properties of these functions. *)

From Stdlib Require Import ZArith Lia Bool.
From Stdlib.Floats Require Import SpecFloat.
From stdpp Require Import gmap strings list.

Set Warnings "-register-all".
#[local] Open Scope string_scope.
#[local] Open Scope list_scope.
#[local] Open Scope Z_scope.

(** ** Python values and exceptions *)

Module Py.

(** The exceptions that the modelled code can raise or let through. *)
Inductive exn :=
  | KeyError
  | TypeError
  | ZeroDivisionError
  | OverflowError
  | ValueError.

(** A Python computation either returns a value or raises. *)
Inductive result (A : Type) :=
  | Ok (a : A)
  | Raise (e : exn).
Arguments Ok {A} a.
Arguments Raise {A} e.

Definition bind {A B} (r : result A) (k : A -> result B) : result B :=
  match r with
  | Ok a => k a
  | Raise e => Raise e
  end.

Notation "x <- r ;; k" := (bind r (fun x => k))
  (at level 100, r at next level, right associativity).

(** The values found in a decoded JSON answer of either site.  Numbers are
    integers: fractional JSON numbers are outside this value domain. *)
Inductive value :=
  | PNone
  | PBool (b : bool)
  | PInt (z : Z)
  | PStr (s : string)
  | PList (l : list value)
  | PDict (d : gmap string value).

(** [bool(v)]: [None], [False], [0], [''], [[]] and [{}] are false. *)
Definition truthy (v : value) : bool :=
  match v with
  | PNone => false
  | PBool b => b
  | PInt z => negb (z =? 0)
  | PStr s => negb (String.eqb s "")
  | PList l => negb (Nat.eqb (length l) 0)
  | PDict d => negb (Nat.eqb (size d) 0)
  end.

(** [v[key]] for a string key: only a dict can be subscripted by a string,
    and a missing key raises [KeyError]. *)
Definition getitem (v : value) (key : string) : result value :=
  match v with
  | PDict d =>
      match d !! key with
      | Some x => Ok x
      | None => Raise KeyError
      end
  | _ => Raise TypeError
  end.

(** [v != s] for a string literal [s]: values of another type are unequal. *)
Definition ne_str (v : value) (s : string) : bool :=
  match v with
  | PStr t => negb (String.eqb t s)
  | _ => true
  end.

(** The integer a value denotes in arithmetic ([bool] is a subclass of
    [int]), if any. *)
Definition as_int (v : value) : option Z :=
  match v with
  | PBool b => Some (Z.b2z b)
  | PInt z => Some z
  | _ => None
  end.

(** [x + y]: integer addition, and concatenation of two strings or lists. *)
Definition add (x y : value) : result value :=
  match as_int x, as_int y with
  | Some a, Some b => Ok (PInt (a + b))
  | _, _ =>
      match x, y with
      | PStr a, PStr b => Ok (PStr (String.append a b))
      | PList a, PList b => Ok (PList (a ++ b))
      | _, _ => Raise TypeError
      end
  end.

(** [x // n] for an integer literal [n]: floor division, which is [Z.div]. *)
Definition floordiv (x : value) (n : Z) : result value :=
  match as_int x with
  | Some a => if n =? 0 then Raise ZeroDivisionError else Ok (PInt (a / n))
  | None => Raise TypeError
  end.

(** *** Binary64 floats *)

Definition prec : Z := 53.
Definition emax : Z := 1024.

(** [float(z)]: the nearest double, ties to even; too large an integer raises
    [OverflowError]. *)
Definition float_of_int (z : Z) : result spec_float :=
  match binary_normalize prec emax z 0 false with
  | S754_infinity _ => Raise OverflowError
  | f => Ok f
  end.

(** [x * c] for a float literal [c]: the integer is converted first. *)
Definition mul_float (x : value) (c : spec_float) : result spec_float :=
  match as_int x with
  | Some a => f <- float_of_int a ;; Ok (SFmul prec emax f c)
  | None => Raise TypeError
  end.

(** [int(f)]: truncation toward zero. *)
Definition int_of_float (f : spec_float) : result value :=
  match f with
  | S754_zero _ => Ok (PInt 0)
  | S754_infinity _ => Raise OverflowError
  | S754_nan => Raise ValueError
  | S754_finite s m e =>
      let magnitude :=
        if 0 <=? e then Z.pos m * 2 ^ e else Z.pos m / 2 ^ (- e) in
      Ok (PInt (if s then - magnitude else magnitude))
  end.

(** What [shr] keeps track of while it drops the [k] low bits of [m0]: the
    bits that are left, the last bit dropped, and whether a lower bit was
    set.  Twice [m0] is written out so that [k = 0] is covered. *)
Definition shifted (m0 k : Z) (r : shr_record) : Prop :=
  0 <= shr_m r /\
  exists rest,
    2 * m0 = 2 * (shr_m r * 2 ^ k) + Z.b2z (shr_r r) * 2 ^ k + rest /\
    0 <= rest < 2 ^ k /\
    (shr_s r = false -> rest = 0).

(** The literals [1.2] and [0.8]: the doubles nearest to 6/5 and 4/5. *)
Definition float_1_2 : spec_float := S754_finite false 5404319552844595 (-52).
Definition float_0_8 : spec_float := S754_finite false 7205759403792794 (-53).

End Py.

(** ** Salary estimation and aggregation *)

Module Salary.
Import Py.

(** The [counters] table of [predict_salary]: one function per pair of
    truth values of the two bounds. *)
Definition counters (key : bool * bool) (x y : value) : result value :=
  match key with
  | (true, true) => s <- add x y ;; floordiv s 2
  | (true, false) => f <- mul_float x float_1_2 ;; int_of_float f
  | (false, true) => f <- mul_float y float_0_8 ;; int_of_float f
  | (false, false) => Ok PNone
  end.

Definition predict_salary (salary_from salary_to : value) : result value :=
  let counter := counters (truthy salary_from, truthy salary_to) in
  counter salary_from salary_to.

(** The [or] of the guard is evaluated left to right and stops at the first
    true operand, so a subscript is only evaluated when it is reached. *)
Definition predict_rub_salary_hh (vacancy : value) : result value :=
  if negb (truthy vacancy) then Ok PNone else
  salary <- getitem vacancy "salary" ;;
  if negb (truthy salary) then Ok PNone else
  currency <- getitem salary "currency" ;;
  if ne_str currency "RUR" then Ok PNone else
  salary_from <- getitem salary "from" ;;
  salary_to <- getitem salary "to" ;;
  predict_salary salary_from salary_to.

Definition predict_rub_salary_sj (vacancy : value) : result value :=
  if negb (truthy vacancy) then Ok PNone else
  currency <- getitem vacancy "currency" ;;
  if ne_str currency "rub" then Ok PNone else
  payment_from <- getitem vacancy "payment_from" ;;
  payment_to <- getitem vacancy "payment_to" ;;
  predict_salary payment_from payment_to.

(** [sum(l)]: starts from [0] and adds the elements from left to right. *)
Definition sum (l : list value) : result value :=
  fold_left (fun acc x => a <- acc ;; add a x) l (Ok (PInt 0)).

(** [len(l)] as a Python integer. *)
Definition len {A} (l : list A) : Z := Z.of_nat (length l).

(** The row is the four-element list
    [[language, vacancies_found, vacancies_processed, average_salary]]. *)
Definition get_statistics (language : value) (vacancies predict_salaries : list value)
  : result value :=
  let predict_salaries := filter (fun x => truthy x = true) predict_salaries in
  let vacancies_found := len vacancies in
  let vacancies_processed := len predict_salaries in
  total <- sum predict_salaries ;;
  average_salary <- floordiv total (len predict_salaries) ;;
  Ok (PList [language; PInt vacancies_found; PInt vacancies_processed; average_salary]).

End Salary.


(** ** Paginated download *)

Module Fetch.
Import Py.

(** What one [requests.get] followed by [raise_for_status] and [json] can do.
    The decoded answer is taken in the shape the sites document: a list of
    vacancies and the pagination field ([pages], an integer, for hh.ru;
    [more], a boolean, for superjob.ru).  [Fails] stands for any exception
    other than [HTTPError] and [ConnectionError]: the loop does not catch
    it. *)
Inductive outcome (B : Type) :=
  | Response (items : list value) (pagination : B)
  | HTTPError
  | ConnectionError
  | Fails (e : exn).
Arguments Response {B} items pagination.
Arguments HTTPError {B}.
Arguments ConnectionError {B}.
Arguments Fails {B} e.

(** The network is a script: the outcome of the request number [n], counted
    from 0 over the whole download. *)
Definition network (B : Type) := nat -> outcome B.

(** The effects of a download, in the order they happen.  A request is
    recorded with the parameters that vary: the search phrase and the page;
    the fixed parameters (area, period, catalogue, town) are left out. *)
Inductive event :=
  | LogInfo (page : Z)
  | Get (phrase : option string) (page : Z)
  | WarnHTTPError (page : Z)
  | WarnConnectionError (page : Z)
  | Sleep (seconds : Z).

(** The world outside the local variables: how many requests were sent, and
    the effects so far. *)
Record world := World { sent : nat; trace : list event }.

Definition start : world := World 0 [].

(** One more request was sent, and [evs] happened. *)
Definition after_request (w : world) (evs : list event) : world :=
  World (S (sent w)) (trace w ++ evs).

(** The local variables when a loop is left, with the world. *)
Record exit (B : Type) := Exit {
  last_page : Z;
  last_pagination : B;
  vacancies : list value;
  final : world
}.
Arguments Exit {B} last_page last_pagination vacancies final.
Arguments last_page {B} e.
Arguments last_pagination {B} e.
Arguments vacancies {B} e.
Arguments final {B} e.

(** One attempt that ended in a [ConnectionError], and the world after [n]
    of them in a row on the same page. *)
Definition failed_attempt (phrase : option string) (page : Z) : list event :=
  [LogInfo page; Get phrase page; WarnConnectionError page; Sleep 30].

Definition retried (phrase : option string) (page : Z) (n : nat) (w : world)
  : world :=
  World (sent w + n) (trace w ++ concat (repeat (failed_attempt phrase page) n)).

(** Counting in a trace: the requests for one page, and the seconds slept. *)
Definition is_get (page : Z) (e : event) : bool :=
  match e with
  | Get _ p => p =? page
  | _ => false
  end.

Definition requests_for (page : Z) (t : list event) : nat :=
  length (List.filter (is_get page) t).

Definition seconds (e : event) : Z :=
  match e with
  | Sleep s => s
  | _ => 0
  end.

Definition slept (t : list event) : Z :=
  fold_right (fun e acc => seconds e + acc) 0 t.

(** *** hh.ru *)

Section HH.
Variable language : string.
Variable net : network Z.

Definition search_text : string :=
  if negb (String.eqb language "")
  then String.append "Программист" (String.append " " language)
  else "Программист".

(** The [while True] loop around one page: it is left by [break] after an
    answer or an [HTTPError], repeats after a [ConnectionError], and lets
    any other exception through.  It returns the updated
    [number_of_pages] and [vacancies]. *)
Fixpoint request_page_hh (fuel : nat) (page number_of_pages : Z)
    (vacancies : list value) (w : world)
  : option (result (Z * list value * world)) :=
  match fuel with
  | O => None
  | S fuel =>
      let asked := [LogInfo page; Get (Some search_text) page] in
      match net (sent w) with
      | Response items pages =>
          Some (Ok (pages, vacancies ++ items, after_request w asked))
      | HTTPError =>
          Some (Ok (number_of_pages, vacancies,
                    after_request w (asked ++ [WarnHTTPError page])))
      | ConnectionError =>
          request_page_hh fuel page number_of_pages vacancies
            (after_request w (asked ++ [WarnConnectionError page; Sleep 30]))
      | Fails e => Some (Raise e)
      end
  end.

(** The [while page < number_of_pages] loop. *)
Fixpoint pages_hh (fuel : nat) (page number_of_pages : Z)
    (vacancies : list value) (w : world) : option (result (exit Z)) :=
  if page <? number_of_pages then
    match fuel with
    | O => None
    | S fuel =>
        match request_page_hh fuel page number_of_pages vacancies w with
        | None => None
        | Some (Raise e) => Some (Raise e)
        | Some (Ok (number_of_pages, vacancies, w)) =>
            pages_hh fuel (page + 1) number_of_pages vacancies w
        end
    end
  else Some (Ok (Exit page number_of_pages vacancies w)).

Definition run_hh (fuel : nat) : option (result (exit Z)) :=
  pages_hh fuel 0 1 [] start.

Definition download_vacancies_hh (fuel : nat) : option (result (list value)) :=
  option_map (fun r => x <- r ;; Ok (vacancies x)) (run_hh fuel).
End HH.

(** *** superjob.ru *)

Section SJ.
Variable language : string.
Variable net : network bool.

Definition keyword : option string :=
  if negb (String.eqb language "") then Some language else None.

Fixpoint request_page_sj (fuel : nat) (page : Z) (more_pages : bool)
    (vacancies : list value) (w : world)
  : option (result (bool * list value * world)) :=
  match fuel with
  | O => None
  | S fuel =>
      let asked := [LogInfo page; Get keyword page] in
      match net (sent w) with
      | Response objects more =>
          Some (Ok (more, vacancies ++ objects, after_request w asked))
      | HTTPError =>
          Some (Ok (more_pages, vacancies,
                    after_request w (asked ++ [WarnHTTPError page])))
      | ConnectionError =>
          request_page_sj fuel page more_pages vacancies
            (after_request w (asked ++ [WarnConnectionError page; Sleep 30]))
      | Fails e => Some (Raise e)
      end
  end.

(** The [while more_pages] loop. *)
Fixpoint pages_sj (fuel : nat) (page : Z) (more_pages : bool)
    (vacancies : list value) (w : world) : option (result (exit bool)) :=
  if more_pages then
    match fuel with
    | O => None
    | S fuel =>
        match request_page_sj fuel page more_pages vacancies w with
        | None => None
        | Some (Raise e) => Some (Raise e)
        | Some (Ok (more_pages, vacancies, w)) =>
            pages_sj fuel (page + 1) more_pages vacancies w
        end
    end
  else Some (Ok (Exit page more_pages vacancies w)).

Definition run_sj (fuel : nat) : option (result (exit bool)) :=
  pages_sj fuel 0 true [] start.

Definition download_vacancies_sj (fuel : nat) : option (result (list value)) :=
  option_map (fun r => x <- r ;; Ok (vacancies x)) (run_sj fuel).
End SJ.

End Fetch.


(** ** One row of a table *)

Module Main.
Import Py Salary Fetch.

(** A list comprehension [[f(x) for x in l]]: left to right, and the first
    exception ends it. *)
Fixpoint comprehension {A B} (f : A -> result B) (l : list A)
  : result (list B) :=
  match l with
  | [] => Ok []
  | x :: l => y <- f x ;; ys <- comprehension f l ;; Ok (y :: ys)
  end.

(** The body of the two [for language in languages] loops of [main]:
    download, estimate every vacancy, aggregate. *)
Definition row_hh (language : string) (net : network Z) (fuel : nat)
  : option (result value) :=
  option_map
    (fun r =>
       vacancies_hh <- r ;;
       predict_salaries_hh <- comprehension predict_rub_salary_hh vacancies_hh ;;
       get_statistics (PStr language) vacancies_hh predict_salaries_hh)
    (download_vacancies_hh language net fuel).

Definition row_sj (language : string) (net : network bool) (fuel : nat)
  : option (result value) :=
  option_map
    (fun r =>
       vacancies_sj <- r ;;
       predict_salaries_sj <- comprehension predict_rub_salary_sj vacancies_sj ;;
       get_statistics (PStr language) vacancies_sj predict_salaries_sj)
    (download_vacancies_sj language net fuel).

End Main.


(** ** The rules as the specification words them *)

Module Spec.
Import Py Salary.

(** A salary bound or estimate: an integer, or absent. *)
Definition of_option (o : option Z) : value :=
  match o with
  | Some z => PInt z
  | None => PNone
  end.

(** The four-case table, with "present" read as "not absent" and both
    roundings as truncation. *)
Definition estimate (lower upper : option Z) : option Z :=
  match lower, upper with
  | Some l, Some u => Some (Z.quot (l + u) 2)
  | Some l, None => Some (Z.quot (6 * l) 5)
  | None, Some u => Some (Z.quot (4 * u) 5)
  | None, None => None
  end.

(** The same table with presence decided as the code decides it: a bound of
    [0] counts as absent; the midpoint is rounded down. *)
Definition nonzero (b : option Z) : option Z :=
  match b with
  | Some 0 => None
  | _ => b
  end.

Definition estimate_by_truth (lower upper : option Z) : option Z :=
  match nonzero lower, nonzero upper with
  | Some l, Some u => Some ((l + u) / 2)
  | Some l, None => Some (Z.quot (6 * l) 5)
  | None, Some u => Some (Z.quot (4 * u) 5)
  | None, None => None
  end.

(** A bound the closed form is proved for: absent, or of magnitude below
    [2 ^ 50]. *)
Definition in_range (b : option Z) : Prop :=
  match b with
  | Some z => Z.abs z < 2 ^ 50
  | None => True
  end.

(** The estimates that count, and their sum. *)
Definition known (estimates : list (option Z)) : list Z :=
  omap id estimates.

Definition known_nonzero (estimates : list (option Z)) : list Z :=
  omap id (map nonzero estimates).

Definition total (l : list Z) : Z := fold_right Z.add 0 l.

(** The aggregation in the specification's words: every non-absent estimate
    is processed, and the mean is truncated. *)
Definition statistics (language : value) (vacancies : list value)
    (estimates : list (option Z)) : value :=
  PList [language; PInt (len vacancies); PInt (len (known estimates));
         PInt (Z.quot (total (known estimates)) (len (known estimates)))].

(** The two sites. *)
Inductive provider := HH | SJ.

Definition ruble (p : provider) : string :=
  match p with
  | HH => "RUR"
  | SJ => "rub"
  end.

Definition predict_rub_salary (p : provider) : value -> result value :=
  match p with
  | HH => predict_rub_salary_hh
  | SJ => predict_rub_salary_sj
  end.

(** The records the wrappers filter out: for hh.ru the [salary] entry is
    null (or empty), or its [currency] is not ['RUR']; for superjob.ru the
    [currency] of the vacancy is not ['rub']. *)
Inductive filtered : provider -> value -> Prop :=
  | no_salary (d : gmap string value) (salary : value) :
      d !! "salary" = Some salary ->
      truthy salary = false ->
      filtered HH (PDict d)
  | foreign_hh (d salary : gmap string value) (currency : value) :
      d !! "salary" = Some (PDict salary) ->
      salary !! "currency" = Some currency ->
      currency <> PStr (ruble HH) ->
      filtered HH (PDict d)
  | foreign_sj (d : gmap string value) (currency : value) :
      d !! "currency" = Some currency ->
      currency <> PStr (ruble SJ) ->
      filtered SJ (PDict d).

End Spec.

(** ** What a script holds *)

Module Script.
Import Py Fetch.

(** The vacancies an outcome carries. *)
Definition items_of {B} (o : outcome B) : list value :=
  match o with
  | Response items _ => items
  | _ => []
  end.

(** The vacancies of the first [n] outcomes of a script, in order. *)
Fixpoint collected {B} (net : network B) (n : nat) : list value :=
  match n with
  | O => []
  | S n => collected net n ++ items_of (net n)
  end.

Definition is_connection_error {B} (o : outcome B) : bool :=
  match o with
  | ConnectionError => true
  | _ => false
  end.

(** The number of connection errors among the first [n] outcomes. *)
Fixpoint connection_errors {B} (net : network B) (n : nat) : nat :=
  match n with
  | O => 0
  | S n =>
      (connection_errors net n
       + (if is_connection_error (net n) then 1 else 0))%nat
  end.

(** The events of the request that ends the inner loop. *)
Definition last_attempt {B} (phrase : option string) (page : Z) (o : outcome B)
  : list event :=
  match o with
  | HTTPError => [LogInfo page; Get phrase page; WarnHTTPError page]
  | _ => [LogInfo page; Get phrase page]
  end.

(** The pagination field of the latest answer among the first [n]
    outcomes, or [default] when none of them is an answer. *)
Fixpoint declared {B} (net : network B) (n : nat) (default : B) : B :=
  match n with
  | O => default
  | S n =>
      match net n with
      | Response _ b => b
      | _ => declared net n default
      end
  end.

(** What holds of the local variables and the world at every turn. *)
Definition accounted {B} (net : network B) (page : Z) (vs : list value)
    (w : world) : Prop :=
  vs = collected net (sent w) /\
  Z.of_nat (sent w) = page + Z.of_nat (connection_errors net (sent w)) /\
  slept (trace w) = 30 * Z.of_nat (connection_errors net (sent w)) /\
  0 <= page /\
  forall q, (0 < requests_for q (trace w))%nat <-> 0 <= q < page.

(** The page that request number [i] asks for: a request asks for the page
    after the one before it, unless that one ended in a connection error. *)
Definition page_at {B} (net : network B) (i : nat) : Z :=
  Z.of_nat i - Z.of_nat (connection_errors net i).

End Script.


(** ** The report *)

Module Report.
Import Py Salary Fetch Main.

Definition languages : list string :=
  ["Python"; "C++"; "C#"; "Go"; "Java"; "JavaScript"; "PHP"; "Ruby"].

(** The header row (a tuple in the source; it is only read). *)
Definition table_cap : value :=
  PList [PStr "Язык"; PStr "Вакансий найдено"; PStr "Вакансий обработано";
         PStr "Средняя зарплата"].

(** What [main] prints: a table, given to [AsciiTable] as a title and a
    list of rows (the layout is the library's), or an empty line. *)
Inductive output :=
  | Table (title : string) (rows : list value)
  | Blank.

(** A [for language in languages] loop: one row is appended for every
    language, in order; the first exception ends the loop. *)
Fixpoint rows_of (row : string -> option (result value))
    (languages : list string) (statistics : list value)
  : option (result (list value)) :=
  match languages with
  | [] => Some (Ok statistics)
  | language :: languages =>
      match row language with
      | None => None
      | Some (Raise e) => Some (Raise e)
      | Some (Ok r) => rows_of row languages (statistics ++ [r])
      end
  end.

(** [main], given the environment after [load_dotenv], and for every
    language the script of each site (for superjob.ru it also depends on the
    key sent).  The result is what was printed, and how [main] ended if
    the fuel sufficed. *)
Definition main (environ : gmap string string)
    (hh : string -> network Z) (sj : string -> string -> network bool)
    (fuel : nat) : list output * option (result unit) :=
  match environ !! "SJ_SECRET_KEY" with
  | None => ([], Some (Raise KeyError))
  | Some sj_secret_key =>
      match rows_of (fun language => row_hh language (hh language) fuel)
              languages [table_cap] with
      | None => ([], None)
      | Some (Raise e) => ([], Some (Raise e))
      | Some (Ok statistics_hh) =>
          let printed := [Table "HeadHunter Moscow" statistics_hh; Blank] in
          match rows_of
                  (fun language =>
                     row_sj language (sj sj_secret_key language) fuel)
                  languages [table_cap] with
          | None => (printed, None)
          | Some (Raise e) => (printed, Some (Raise e))
          | Some (Ok statistics_sj) =>
              (printed ++ [Table "SuperJob Moscow" statistics_sj; Blank],
               Some (Ok tt))
          end
      end
  end.

(** A row as [get_statistics] builds it for a language. *)
Definition row_for (language : string) (r : value) : Prop :=
  exists found processed average : Z,
    r = PList [PStr language; PInt found; PInt processed; PInt average] /\
    0 < processed <= found.

End Report.


(** * Properties *)

Import Py Salary Fetch Main Spec.

(** ** Truthiness *)

(** A dict with an entry is not empty, hence true. *)
Lemma truthy_dict_lookup (d : gmap string value) (k : string) (v : value) :
  d !! k = Some v -> truthy (PDict d) = true.
Proof.
  intros Hk. simpl. apply negb_true_iff, Nat.eqb_neq.
  apply (map_size_ne_0_lookup_2 d k). rewrite Hk. eauto.
Qed.

(** Anything but the string itself is unequal to it. *)
Lemma ne_str_true (v : value) (s : string) : v <> PStr s -> ne_str v s = true.
Proof.
  destruct v as [| | | t | |]; simpl; try reflexivity.
  intros Hne. apply negb_true_iff, String.eqb_neq. congruence.
Qed.

(** ** Binary64 arithmetic

    [int(x * 1.2)] and [int(x * 0.8)] go through a double.  The lemmas below
    follow the rounding of [SpecFloat] far enough to give both a closed form
    on integers of magnitude below [2 ^ 50]. *)

(** [digits2_pos p] is the number of binary digits of [p]. *)
Lemma digits2_pos_bounds (p : positive) :
  2 ^ (Z.pos (digits2_pos p) - 1) <= Z.pos p < 2 ^ Z.pos (digits2_pos p).
Proof.
  induction p as [p IH | p IH |]; cbn [digits2_pos].
  - rewrite Pos2Z.inj_succ, (Pos2Z.inj_xI p).
    replace (Z.succ (Z.pos (digits2_pos p)) - 1)
      with (Z.succ (Z.pos (digits2_pos p) - 1)) by lia.
    rewrite !Z.pow_succ_r by lia. lia.
  - rewrite Pos2Z.inj_succ, (Pos2Z.inj_xO p).
    replace (Z.succ (Z.pos (digits2_pos p)) - 1)
      with (Z.succ (Z.pos (digits2_pos p) - 1)) by lia.
    rewrite !Z.pow_succ_r by lia. lia.
  - cbn. lia.
Qed.

Lemma digits2_pos_unique (p : positive) (d : Z) :
  2 ^ (d - 1) <= Z.pos p < 2 ^ d -> Z.pos (digits2_pos p) = d.
Proof.
  intros [Hlo Hhi]. pose proof (digits2_pos_bounds p) as [Blo Bhi].
  assert (0 < d).
  { destruct (Z.ltb_spec 0 d) as [| Hd]; [assumption |].
    destruct (Z.eqb_spec d 0) as [-> |]; [cbn in Hhi; lia |].
    rewrite Z.pow_neg_r in Hhi by lia. lia. }
  set (n := Z.pos (digits2_pos p)) in *.
  destruct (Z.lt_trichotomy n d) as [Hlt | [Heq | Hgt]]; [| exact Heq |].
  - assert (2 ^ n <= 2 ^ (d - 1)) by (apply Z.pow_le_mono_r; lia). lia.
  - assert (2 ^ d <= 2 ^ (n - 1)) by (apply Z.pow_le_mono_r; lia). lia.
Qed.

(** One step of [shr] drops one more bit. *)
Lemma shr_1_shifted (m0 k : Z) (r : shr_record) :
  0 <= k -> shifted m0 k r -> shifted m0 (k + 1) (shr_1 r).
Proof.
  intros Hk (Hm & rest & Heq & Hrest & Hs).
  destruct r as [m b s]. unfold shifted. cbn [shr_m shr_r shr_s] in *.
  rewrite Z.pow_add_r, Z.pow_1_r by lia.
  set (P := 2 ^ k) in *.
  assert (HP : 0 < P) by (apply Z.pow_pos_nonneg; lia).
  assert (Hnew : 0 <= Z.b2z b * P + rest < P * 2 /\
                 (b || s = false -> Z.b2z b * P + rest = 0)).
  { split; [destruct b; cbn [Z.b2z]; lia |].
    intros Hor. apply orb_false_iff in Hor as [-> ->]. cbn [Z.b2z]. lia. }
  destruct Hnew as [Hnew Hsticky].
  destruct m as [| [p | p |] | p]; try lia; cbn [shr_1 shr_m shr_r shr_s];
    (split; [lia |]); exists (Z.b2z b * P + rest);
    (split; [| split; [exact Hnew | exact Hsticky]]);
    try rewrite (Pos2Z.inj_xI p) in Heq; try rewrite (Pos2Z.inj_xO p) in Heq;
    cbn [Z.b2z]; lia.
Qed.

Lemma iter_shr_1_shifted (m0 : Z) (n : positive) :
  forall (k : Z) (r : shr_record),
    0 <= k ->
    shifted m0 k r ->
    shifted m0 (k + Z.pos n) (SpecFloat.iter_pos shr_1 n r).
Proof.
  induction n as [n IH | n IH |]; intros k r Hk H; cbn [SpecFloat.iter_pos].
  - replace (k + Z.pos n~1) with (k + 1 + Z.pos n + Z.pos n) by lia.
    apply IH; [lia |]. apply IH; [lia |]. apply shr_1_shifted; assumption.
  - replace (k + Z.pos n~0) with (k + Z.pos n + Z.pos n) by lia.
    apply IH; [lia |]. apply IH; assumption.
  - apply shr_1_shifted; assumption.
Qed.

(** In the normal range the exponent of a number with [z] digits before the
    binary point is [z - 53]. *)
Lemma fexp_normal (z : Z) :
  -1074 <= z - 53 -> fexp prec emax z = z - 53.
Proof. intros H. unfold fexp, emin, prec, emax. lia. Qed.

(** [shr_fexp] on a mantissa of [53 + k] digits drops exactly [k] bits. *)
Lemma shr_fexp_exact (m : positive) (e k : Z) :
  0 <= k ->
  Z.pos (digits2_pos m) = 53 + k ->
  -1074 <= e + k ->
  exists r,
    shr_fexp prec emax (Z.pos m) e loc_Exact = (r, e + k) /\
    shifted (Z.pos m) k r /\
    (k = 0 -> r = Build_shr_record (Z.pos m) false false).
Proof.
  intros Hk Hd He. unfold shr_fexp. cbn [Zdigits2 shr_record_of_loc].
  rewrite Hd, fexp_normal by lia.
  replace (53 + k + e - 53 - e) with k by lia.
  assert (H0 : shifted (Z.pos m) 0 (Build_shr_record (Z.pos m) false false)).
  { unfold shifted. cbn [shr_m shr_r shr_s Z.b2z]. split; [lia |].
    exists 0. rewrite Z.pow_0_r. lia. }
  destruct k as [| p | p]; [| | lia]; cbn [shr].
  - rewrite Z.add_0_r. eexists. split; [reflexivity |].
    split; [exact H0 | reflexivity].
  - eexists. split; [reflexivity |]. split; [| discriminate].
    apply (iter_shr_1_shifted (Z.pos m) p 0 _ ltac:(lia) H0).
Qed.

(** Rounding to nearest moves by at most half a unit of the last kept bit. *)
Lemma round_nearest_even_near (m0 k : Z) (r : shr_record) :
  0 <= k -> shifted m0 k r ->
  let m' := round_nearest_even (shr_m r) (loc_of_shr_record r) in
  shr_m r <= m' <= shr_m r + 1 /\
  2 * Z.abs (m' * 2 ^ k - m0) <= 2 ^ k /\
  shr_m r * 2 ^ k <= m0 < (shr_m r + 1) * 2 ^ k.
Proof.
  intros Hk (Hm & rest & Heq & Hrest & Hs).
  destruct r as [m b s]. cbn [shr_m shr_r shr_s] in *.
  set (P := 2 ^ k) in *.
  assert (HP : 0 < P) by (apply Z.pow_pos_nonneg; lia).
  destruct b, s; cbn [loc_of_shr_record round_nearest_even Z.b2z] in *;
    try (specialize (Hs eq_refl)); try destruct (Z.even m); lia.
Qed.

(** Rounding a mantissa of [53 + k] digits: the result is finite, has 53
    digits, and is within half of [2 ^ k] of the exact value. *)
Lemma binary_round_aux_exact (s : bool) (mx : positive) (e k : Z) :
  0 <= k ->
  Z.pos (digits2_pos mx) = 53 + k ->
  -1074 <= e + k ->
  e + k + 1 <= 971 ->
  exists (m : positive) (K : Z),
    binary_round_aux prec emax s (Z.pos mx) e loc_Exact
    = S754_finite s m (e + K) /\
    k <= K <= k + 1 /\
    2 ^ 52 <= Z.pos m < 2 ^ 53 /\
    2 * Z.abs (Z.pos m * 2 ^ K - Z.pos mx) <= 2 ^ k.
Proof.
  intros Hk Hd He1 He2.
  destruct (shr_fexp_exact mx e k Hk Hd He1) as (r & Hr & Hsh & _).
  destruct (round_nearest_even_near (Z.pos mx) k r Hk Hsh)
    as (Hm' & Hnear & Hfloor).
  pose proof (digits2_pos_bounds mx) as Hb. rewrite Hd in Hb.
  replace (53 + k - 1) with (52 + k) in Hb by lia.
  rewrite !Z.pow_add_r in Hb by lia.
  unfold binary_round_aux. rewrite Hr.
  set (m' := round_nearest_even (shr_m r) (loc_of_shr_record r)) in *.
  set (P := 2 ^ k) in *.
  assert (HP : 0 < P) by (apply Z.pow_pos_nonneg; lia).
  assert (Hrange : 2 ^ 52 <= shr_m r < 2 ^ 53) by nia.
  destruct (Z.eq_dec m' (2 ^ 53)) as [Htop | Htop].
  - rewrite Htop in *.
    destruct (shr_fexp_exact (2 ^ 53)%positive (e + k) 1
                ltac:(lia) eq_refl ltac:(lia))
      as (r2 & Hr2 & (Hm2 & rest & Heq & Hrest & _) & _).
    change (Z.pos (2 ^ 53)) with (2 ^ 53) in *. rewrite Hr2.
    assert (Hv : shr_m r2 = 2 ^ 52).
    { change (2 ^ 1) with 2 in *. destruct (shr_r r2); cbn [Z.b2z] in Heq; lia. }
    rewrite Hv. change (2 ^ 52) with (Z.pos (2 ^ 52)) at 1. cbv iota beta.
    replace (e + k + 1 <=? emax - prec) with true
      by (symmetry; apply Z.leb_le; unfold emax, prec; lia).
    exists (2 ^ 52)%positive, (k + 1).
    split; [f_equal; lia |]. split; [lia |]. split; [cbn; lia |].
    rewrite Z.pow_add_r, Z.pow_1_r by lia. fold P.
    change (Z.pos (2 ^ 52)) with (2 ^ 52). lia.
  - assert (Hlt : 2 ^ 52 <= m' < 2 ^ 53) by lia.
    destruct m' as [| p | p] eqn:Ep; try lia.
    destruct (shr_fexp_exact p (e + k) 0 ltac:(lia)
                (digits2_pos_unique p 53 Hlt) ltac:(lia))
      as (r2 & Hr2 & _ & Hexact).
    rewrite Hr2, (Hexact eq_refl). cbn [shr_m].
    replace (e + k + 0 <=? emax - prec) with true
      by (symmetry; apply Z.leb_le; unfold emax, prec; lia).
    exists p, k. split; [f_equal; lia |]. split; [lia |]. split; [exact Hlt |].
    exact Hnear.
Qed.

(** Shifting left is multiplying by a power of two. *)
Lemma iter_xO_pow (p q : positive) :
  Z.pos (Pos.iter xO p q) = Z.pos p * 2 ^ Z.pos q.
Proof.
  induction q as [| q IH] using Pos.peano_ind.
  - cbn [Pos.iter]. rewrite (Pos2Z.inj_xO p), Z.pow_1_r. lia.
  - rewrite Pos.iter_succ, (Pos2Z.inj_xO (Pos.iter xO p q)), IH.
    rewrite Pos2Z.inj_succ, Z.pow_succ_r by lia. lia.
Qed.

(** An integer below [2 ^ 53] is converted exactly. *)
Lemma binary_round_int (s : bool) (p : positive) :
  Z.pos p < 2 ^ 53 ->
  exists (m : positive) (a : Z),
    binary_round prec emax s p 0 = S754_finite s m (- a) /\
    0 <= a <= 52 /\
    2 ^ 52 <= Z.pos m < 2 ^ 53 /\
    Z.pos m = Z.pos p * 2 ^ a.
Proof.
  intros Hp. pose proof (digits2_pos_bounds p) as Hb.
  set (d := Z.pos (digits2_pos p)) in *.
  assert (Hd : 1 <= d <= 53).
  { split; [subst d; lia |].
    destruct (Z.le_gt_cases d 53) as [| Hgt]; [assumption |].
    assert (2 ^ 53 <= 2 ^ (d - 1)) by (apply Z.pow_le_mono_r; lia). lia. }
  assert (Hsplit : 2 ^ 52 = 2 ^ (d - 1) * 2 ^ (53 - d) /\
                   2 ^ 53 = 2 ^ d * 2 ^ (53 - d)).
  { rewrite <- !Z.pow_add_r by lia. split; f_equal; lia. }
  destruct Hsplit as [H52 H53].
  assert (Hpos : 0 < 2 ^ (53 - d)) by (apply Z.pow_pos_nonneg; lia).
  unfold binary_round. fold d. rewrite Z.add_0_r, fexp_normal by lia.
  unfold shl_align. rewrite Z.sub_0_r.
  assert (Haux : forall mz : positive,
             Z.pos mz = Z.pos p * 2 ^ (53 - d) ->
             exists (m : positive) (a : Z),
               binary_round_aux prec emax s (Z.pos mz) (d - 53) loc_Exact
               = S754_finite s m (- a) /\
               0 <= a <= 52 /\ 2 ^ 52 <= Z.pos m < 2 ^ 53 /\
               Z.pos m = Z.pos p * 2 ^ a).
  { intros mz Hmz.
    assert (Hr : 2 ^ 52 <= Z.pos mz < 2 ^ 53) by nia.
    destruct (binary_round_aux_exact s mz (d - 53) 0 ltac:(lia)
                (digits2_pos_unique mz 53 Hr) ltac:(lia) ltac:(lia))
      as (m & K & Heq & HK & Hm & Hnear).
    rewrite Z.pow_0_r in Hnear.
    assert (K = 0).
    { destruct (Z.eq_dec K 0) as [| HK0]; [assumption |].
      replace K with 1 in Hnear by lia. rewrite Z.pow_1_r in Hnear. lia. }
    subst K. rewrite Z.pow_0_r in Hnear.
    exists m, (53 - d). rewrite Heq.
    split; [f_equal; lia |]. split; [lia |]. split; [exact Hm | lia]. }
  destruct (d - 53) as [| q | q] eqn:Eq; try lia.
  - apply Haux. replace (53 - d) with 0 by lia. rewrite Z.pow_0_r. lia.
  - apply Haux. rewrite iter_xO_pow. f_equal. f_equal. lia.
Qed.

Lemma float_of_int_finite (x : Z) :
  0 < Z.abs x < 2 ^ 53 ->
  exists (m : positive) (a : Z),
    float_of_int x = Ok (S754_finite (x <? 0) m (- a)) /\
    0 <= a <= 52 /\
    2 ^ 52 <= Z.pos m < 2 ^ 53 /\
    Z.pos m = Z.abs x * 2 ^ a.
Proof.
  intros Hx. unfold float_of_int.
  destruct x as [| p | p]; cbn [binary_normalize Z.abs Z.ltb Z.compare] in *;
    [lia | |].
  - destruct (binary_round_int false p ltac:(lia)) as (m & a & -> & H).
    exists m, a. split; [reflexivity | exact H].
  - destruct (binary_round_int true p ltac:(lia)) as (m & a & -> & H).
    exists m, a. split; [reflexivity | exact H].
Qed.

(** [int(x * c)] for a double [c] with mantissa [M]: the magnitude is a
    quotient [m / (B * 2 ^ _)], where [m] is within half a unit of the
    exact product, written on the scale of [B = 2 ^ (a - 2)] for the
    exponent [- a] of [float(x)]. *)
Lemma scaled_int_facts (x : Z) (M : positive) (ec : Z) :
  0 < Z.abs x < 2 ^ 50 ->
  2 ^ 52 <= Z.pos M < 2 ^ 53 ->
  -53 <= ec <= -52 ->
  exists (m : positive) (B K k : Z),
    (f <- mul_float (PInt x) (S754_finite false M ec) ;; int_of_float f)
    = Ok (PInt (if x <? 0
                then - (Z.pos m / (B * 2 ^ (2 - ec - K)))
                else Z.pos m / (B * 2 ^ (2 - ec - K)))) /\
    2 <= B /\
    (k = 52 \/ k = 53) /\
    (K = k \/ K = k + 1) /\
    2 ^ (52 + k) <= 4 * (Z.abs x * B) * Z.pos M < 2 ^ (53 + k) /\
    2 * Z.abs (Z.pos m * 2 ^ K - 4 * (Z.abs x * B) * Z.pos M) <= 2 ^ k.
Proof.
  intros Hx HM Hec.
  destruct (float_of_int_finite x ltac:(lia))
    as (m1 & a & Hf & Ha & Hm1 & Hval).
  assert (Ha3 : 3 <= a).
  { destruct (Z.le_gt_cases 3 a) as [| Hlt]; [assumption |].
    assert (2 ^ a <= 2 ^ 2) by (apply Z.pow_le_mono_r; lia).
    change (2 ^ 2) with 4 in *. nia. }
  set (B := 2 ^ (a - 2)).
  assert (HB : 2 ^ a = 4 * B).
  { subst B. replace a with (2 + (a - 2)) at 1 by lia.
    rewrite Z.pow_add_r by lia. reflexivity. }
  assert (HB2 : 2 <= B).
  { subst B. change 2 with (2 ^ 1) at 1. apply Z.pow_le_mono_r; lia. }
  assert (Hprod : Z.pos (m1 * M) = 4 * (Z.abs x * B) * Z.pos M).
  { rewrite Pos2Z.inj_mul, Hval, HB. ring. }
  assert (Hk : exists k, (k = 52 \/ k = 53) /\
                         2 ^ (52 + k) <= Z.pos (m1 * M) < 2 ^ (53 + k)).
  { rewrite Pos2Z.inj_mul.
    destruct (Z.lt_ge_cases (Z.pos m1 * Z.pos M) (2 ^ 105)) as [Hlt | Hge].
    - exists 52. split; [left; reflexivity |].
      change (2 ^ (52 + 52)) with (2 ^ 52 * 2 ^ 52).
      change (2 ^ (53 + 52)) with (2 ^ 105). nia.
    - exists 53. split; [right; reflexivity |].
      change (2 ^ (52 + 53)) with (2 ^ 105).
      change (2 ^ (53 + 53)) with (2 ^ 53 * 2 ^ 53). nia. }
  destruct Hk as (k & Hk & Hdig).
  destruct (binary_round_aux_exact (xorb (x <? 0) false) (m1 * M) (- a + ec) k
              ltac:(lia)
              (digits2_pos_unique (m1 * M) (53 + k)
                 ltac:(replace (53 + k - 1) with (52 + k) by lia; exact Hdig))
              ltac:(lia) ltac:(lia))
    as (m & K & Hmul & HK & _ & Hnear).
  rewrite xorb_false_r in Hmul.
  exists m, B, K, k.
  split; [| split; [exact HB2 | split; [exact Hk | split; [lia |]]]].
  - unfold mul_float. cbn [as_int]. rewrite Hf. cbn [bind SFmul].
    rewrite xorb_false_r, Hmul. cbn [int_of_float].
    replace (0 <=? - a + ec + K) with false by (symmetry; apply Z.leb_gt; lia).
    replace (- (- a + ec + K)) with ((a - 2) + (2 - ec - K)) by lia.
    rewrite Z.pow_add_r by lia. fold B.
    destruct (x <? 0); reflexivity.
  - rewrite <- Hprod. split; [exact Hdig | exact Hnear].
Qed.

(** Replace the closed powers of two by their values, for [lia]. *)
Ltac pow_literals :=
  repeat match goal with
    | |- context [2 ^ ?n] =>
        let v := eval vm_compute in (2 ^ n) in
        lazymatch v with
        | Z.pos _ => change (2 ^ n) with v
        end
    | H : context [2 ^ ?n] |- _ =>
        let v := eval vm_compute in (2 ^ n) in
        lazymatch v with
        | Z.pos _ => change (2 ^ n) with v in H
        end
    end.

(** Truncation toward zero, from the quotient of the magnitude. *)
Lemma quot_of_abs (n x q : Z) :
  0 < n -> (n * Z.abs x) / 5 = q ->
  (if x <? 0 then - q else q) = Z.quot (n * x) 5.
Proof.
  intros Hn <-. destruct (Z.ltb_spec x 0) as [Hneg | Hpos].
  - replace (n * x) with (- (n * Z.abs x)) by lia.
    rewrite Z.quot_opp_l by lia. rewrite Z.quot_div_nonneg by lia. reflexivity.
  - replace (Z.abs x) with x by lia. rewrite Z.quot_div_nonneg by lia. reflexivity.
Qed.

(** [int(x * 1.2)] is [6 * x / 5] truncated toward zero. *)
Lemma scale_1_2 (x : Z) :
  0 < Z.abs x < 2 ^ 50 ->
  (f <- mul_float (PInt x) float_1_2 ;; int_of_float f)
  = Ok (PInt (Z.quot (6 * x) 5)).
Proof.
  intros Hx. unfold float_1_2.
  destruct (scaled_int_facts x 5404319552844595 (-52) Hx
              ltac:(cbn; lia) ltac:(lia))
    as (m & B & K & k & -> & HB & Hk & HK & Hdig & Hnear).
  f_equal. f_equal. apply quot_of_abs; [lia |].
  pose proof (Z.div_mod (6 * Z.abs x) 5 ltac:(lia)) as Hdm.
  pose proof (Z.mod_pos_bound (6 * Z.abs x) 5 ltac:(lia)) as Hrho.
  set (q := 6 * Z.abs x / 5) in *. set (rho := (6 * Z.abs x) mod 5) in *.
  assert (HY : 6 * (Z.abs x * B) = 5 * (q * B) + rho * B) by nia.
  assert (HR : 0 <= rho * B <= 4 * B) by nia.
  set (Y := Z.abs x * B) in *. set (QB := q * B) in *. set (RB := rho * B) in *.
  destruct Hk as [-> | ->]; destruct HK as [-> | ->];
    pow_literals;
    match goal with
    | |- _ = Z.pos m / (B * ?L) =>
        apply Z.div_unique with (r := Z.pos m - L * QB);
        [left | subst QB; ring]
    end; lia.
Qed.

(** [int(x * 0.8)] is [4 * x / 5] truncated toward zero. *)
Lemma scale_0_8 (x : Z) :
  0 < Z.abs x < 2 ^ 50 ->
  (f <- mul_float (PInt x) float_0_8 ;; int_of_float f)
  = Ok (PInt (Z.quot (4 * x) 5)).
Proof.
  intros Hx. unfold float_0_8.
  destruct (scaled_int_facts x 7205759403792794 (-53) Hx
              ltac:(cbn; lia) ltac:(lia))
    as (m & B & K & k & -> & HB & Hk & HK & Hdig & Hnear).
  f_equal. f_equal. apply quot_of_abs; [lia |].
  pose proof (Z.div_mod (4 * Z.abs x) 5 ltac:(lia)) as Hdm.
  pose proof (Z.mod_pos_bound (4 * Z.abs x) 5 ltac:(lia)) as Hrho.
  set (q := 4 * Z.abs x / 5) in *. set (rho := (4 * Z.abs x) mod 5) in *.
  assert (HY : 4 * (Z.abs x * B) = 5 * (q * B) + rho * B) by nia.
  assert (HR : 0 <= rho * B <= 4 * B) by nia.
  set (Y := Z.abs x * B) in *. set (QB := q * B) in *. set (RB := rho * B) in *.
  destruct Hk as [-> | ->]; destruct HK as [-> | ->];
    pow_literals;
    match goal with
    | |- _ = Z.pos m / (B * ?L) =>
        apply Z.div_unique with (r := Z.pos m - L * QB);
        [left | subst QB; ring]
    end; lia.
Qed.

(** ** The estimator of one site *)

(** C4: a record whose salary entry is null, or whose currency is not the
    ruble code of its site, gets no estimate, whatever its bounds are. *)
Theorem currency_filter (p : provider) (vacancy : value) :
  filtered p vacancy -> predict_rub_salary p vacancy = Ok PNone.
Proof.
  intros [d salary Hs Hfalse | d salary currency Hs Hc Hne | d currency Hc Hne];
    cbn [predict_rub_salary ruble] in *.
  - unfold predict_rub_salary_hh.
    rewrite (truthy_dict_lookup d _ _ Hs). simpl. rewrite Hs. simpl.
    rewrite Hfalse. reflexivity.
  - unfold predict_rub_salary_hh.
    rewrite (truthy_dict_lookup d _ _ Hs). simpl getitem. rewrite Hs.
    cbn [bind negb]. rewrite (truthy_dict_lookup salary _ _ Hc).
    simpl getitem. rewrite Hc. cbn [bind negb].
    rewrite (ne_str_true _ _ Hne). reflexivity.
  - unfold predict_rub_salary_sj.
    rewrite (truthy_dict_lookup d _ _ Hc). simpl getitem. rewrite Hc.
    cbn [bind negb]. rewrite (ne_str_true _ _ Hne). reflexivity.
Qed.

Lemma currency_filter_witness :
  let vacancy :=
    PDict {[ "salary" :=
               PDict {[ "currency" := PStr "USD";
                        "from" := PInt 100; "to" := PInt 200 ]} ]} in
  filtered HH vacancy /\ predict_rub_salary HH vacancy = Ok PNone.
Proof.
  assert (H : filtered HH
                (PDict {[ "salary" :=
                            PDict {[ "currency" := PStr "USD";
                                     "from" := PInt 100; "to" := PInt 200 ]} ]})).
  { eapply foreign_hh with (currency := PStr "USD");
      [vm_compute; reflexivity | vm_compute; reflexivity | discriminate]. }
  split; [exact H | exact (currency_filter HH _ H)].
Defined.

(** A record without the [salary] key is another matter: the subscript
    raises. *)
Example missing_salary_key :
  predict_rub_salary_hh (PDict {[ "id" := PInt 1 ]}) = Raise KeyError.
Proof. vm_compute. reflexivity. Qed.

Example ruble_range_hh :
  predict_rub_salary_hh
    (PDict {[ "salary" :=
                PDict {[ "currency" := PStr "RUR";
                         "from" := PInt 100; "to" := PInt 200 ]} ]})
  = Ok (PInt 150).
Proof. vm_compute. reflexivity. Qed.

Example ruble_range_sj :
  predict_rub_salary_sj
    (PDict {[ "currency" := PStr "rub";
              "payment_from" := PInt 100; "payment_to" := PInt 0 ]})
  = Ok (PInt 120).
Proof. vm_compute. reflexivity. Qed.

(** ** The shared estimator *)

(** C9: presence of a bound is its truth value, so a bound of [0] is handled
    exactly as an absent one. *)
Theorem zero_bound_is_absent :
  (forall y, predict_salary (PInt 0) y = predict_salary PNone y) /\
  (forall x, predict_salary x (PInt 0) = predict_salary x PNone) /\
  predict_salary (PInt 0) (PInt 200) = Ok (PInt 160) /\
  predict_salary (PInt 0) (PInt 0) = Ok PNone.
Proof.
  split; [| split; [| split]].
  - intros y. unfold predict_salary. simpl truthy.
    destruct (truthy y); reflexivity.
  - intros x. unfold predict_salary. simpl truthy.
    destruct (truthy x); reflexivity.
  - vm_compute. reflexivity.
  - reflexivity.
Qed.

(** C1, as worded, fails when a bound is [0]: the table gives the midpoint
    100, the code scales the upper bound. *)
Lemma estimate_zero_lower_differs :
  predict_salary (of_option (Some 0)) (of_option (Some 200)) = Ok (PInt 160) /\
  predict_salary (of_option (Some 0)) (of_option (Some 200))
    <> Ok (of_option (estimate (Some 0) (Some 200))).
Proof. split; [vm_compute; reflexivity | vm_compute; discriminate]. Qed.

Lemma truthy_int (z : Z) : z <> 0 -> truthy (PInt z) = true.
Proof. intros Hz. simpl. apply negb_true_iff, Z.eqb_neq. exact Hz. Qed.

(** C1, amended: a bound counts as present when it is neither absent nor
    [0]; for bounds of magnitude below [2 ^ 50] the estimate is then the
    four-case table: the midpoint rounded down, the lower bound times 6/5 or
    the upper bound times 4/5 truncated toward zero, or nothing. *)
Theorem predict_salary_by_truth (lower upper : option Z) :
  in_range lower -> in_range upper ->
  predict_salary (of_option lower) (of_option upper)
  = Ok (of_option (estimate_by_truth lower upper)).
Proof.
  intros Hl Hu. unfold predict_salary, estimate_by_truth.
  destruct lower as [l |], upper as [u |]; cbn [of_option in_range] in *.
  - destruct (Z.eq_dec l 0) as [-> | Hl0], (Z.eq_dec u 0) as [-> | Hu0].
    + reflexivity.
    + rewrite (truthy_int u Hu0). cbn [truthy Z.eqb negb counters nonzero].
      rewrite scale_0_8 by lia. destruct u; [contradiction | reflexivity..].
    + rewrite (truthy_int l Hl0). cbn [truthy Z.eqb negb counters nonzero].
      rewrite scale_1_2 by lia. destruct l; [contradiction | reflexivity..].
    + rewrite (truthy_int l Hl0), (truthy_int u Hu0).
      destruct l; [contradiction | |]; (destruct u; [contradiction | |]);
        reflexivity.
  - destruct (Z.eq_dec l 0) as [-> | Hl0]; [reflexivity |].
    rewrite (truthy_int l Hl0). cbn [truthy counters nonzero].
    rewrite scale_1_2 by lia. destruct l; [contradiction | reflexivity..].
  - destruct (Z.eq_dec u 0) as [-> | Hu0]; [reflexivity |].
    rewrite (truthy_int u Hu0). cbn [truthy counters nonzero].
    rewrite scale_0_8 by lia. destruct u; [contradiction | reflexivity..].
  - reflexivity.
Qed.

Lemma predict_salary_by_truth_witness :
  in_range (Some 100) /\ in_range None /\
  predict_salary (PInt 100) PNone = Ok (PInt 120).
Proof.
  assert (H : in_range (Some 100)) by (vm_compute; reflexivity).
  split; [exact H |]. split; [exact I |].
  exact (predict_salary_by_truth (Some 100) None H I).
Defined.

(** The four examples of the table. *)
Example estimate_examples :
  predict_salary (PInt 100) (PInt 200) = Ok (PInt 150) /\
  predict_salary (PInt 100) PNone = Ok (PInt 120) /\
  predict_salary PNone (PInt 200) = Ok (PInt 160) /\
  predict_salary PNone PNone = Ok PNone.
Proof. repeat split; vm_compute; reflexivity. Qed.

(** On bounds that are not negative, the table by truth value is the table
    of the specification once a bound of [0] is taken as absent. *)
Lemma estimate_by_truth_nonnegative (lower upper : option Z) :
  (forall l, lower = Some l -> 0 <= l) ->
  (forall u, upper = Some u -> 0 <= u) ->
  estimate_by_truth lower upper = estimate (nonzero lower) (nonzero upper).
Proof.
  intros Hl Hu. unfold estimate_by_truth.
  destruct (nonzero lower) as [l |] eqn:El, (nonzero upper) as [u |] eqn:Eu;
    try reflexivity.
  assert (0 <= l).
  { apply Hl. destruct lower as [[| p | p] |]; cbn in El; congruence. }
  assert (0 <= u).
  { apply Hu. destruct upper as [[| p | p] |]; cbn in Eu; congruence. }
  cbn [estimate]. rewrite Z.quot_div_nonneg by lia. reflexivity.
Qed.

(** A negative sum is rounded down, not truncated. *)
Example midpoint_rounds_down :
  predict_salary (PInt (-1)) (PInt (-2)) = Ok (PInt (-2)) /\
  Z.quot (-1 + -2) 2 = -1.
Proof. split; reflexivity. Qed.

(** Far beyond the range, the rounding of the double shows. *)
Example scaling_beyond_range :
  predict_salary (PInt 3752999689475414) PNone = Ok (PInt 4503599627370497) /\
  Z.quot (6 * 3752999689475414) 5 = 4503599627370496 /\
  predict_salary PNone (PInt 2814749767106551) = Ok (PInt 2251799813685241) /\
  Z.quot (4 * 2814749767106551) 5 = 2251799813685240.
Proof. repeat split; vm_compute; reflexivity. Qed.

(** ** Aggregation *)

Lemma filter_truthy_of_option (estimates : list (option Z)) :
  filter (fun x => truthy x = true) (map of_option estimates)
  = map PInt (known_nonzero estimates).
Proof.
  induction estimates as [| [[| p | p] |] estimates IH]; simpl.
  - reflexivity.
  - rewrite filter_cons_False by (simpl; discriminate). exact IH.
  - rewrite filter_cons_True by reflexivity. unfold known_nonzero in *.
    simpl. f_equal. exact IH.
  - rewrite filter_cons_True by reflexivity. unfold known_nonzero in *.
    simpl. f_equal. exact IH.
  - rewrite filter_cons_False by (simpl; discriminate). exact IH.
Qed.

Lemma sum_from (l : list Z) (a : Z) :
  fold_left (fun acc x => s <- acc ;; add s x) (map PInt l) (Ok (PInt a))
  = Ok (PInt (a + total l)).
Proof.
  revert a. induction l as [| z l IH]; intros a;
    cbn [fold_left map bind add as_int total fold_right].
  - f_equal. f_equal. lia.
  - rewrite IH. f_equal. f_equal. unfold total. lia.
Qed.

Lemma sum_ints (l : list Z) : sum (map PInt l) = Ok (PInt (total l)).
Proof. unfold sum. rewrite sum_from. reflexivity. Qed.

Lemma len_map {A B} (f : A -> B) (l : list A) : len (map f l) = len l.
Proof. unfold len. rewrite length_map. reflexivity. Qed.

Lemma len_zero {A} (l : list A) : len l = 0 <-> l = [].
Proof.
  unfold len. destruct l; simpl; split; intros H;
    try reflexivity; try discriminate; lia.
Qed.

(** What [get_statistics] does on any list of estimates. *)
Lemma get_statistics_eq (language : value) (vacancies : list value)
    (estimates : list (option Z)) :
  get_statistics language vacancies (map of_option estimates)
  = match known_nonzero estimates with
    | [] => Raise ZeroDivisionError
    | l => Ok (PList [language; PInt (len vacancies); PInt (len l);
                      PInt (total l / len l)])
    end.
Proof.
  unfold get_statistics. rewrite filter_truthy_of_option, sum_ints.
  rewrite len_map. cbn [bind floordiv as_int].
  destruct (known_nonzero estimates) as [| z l] eqn:E; [reflexivity |].
  destruct (len (z :: l) =? 0) eqn:Hz; [| reflexivity].
  apply Z.eqb_eq, len_zero in Hz. discriminate.
Qed.

(** C3, amended: the estimates that count are those that are neither absent
    nor [0]; with at least one of them the row holds the number of
    vacancies, the number of such estimates, and their mean rounded down. *)
Theorem statistics_of_estimates (language : value) (vacancies : list value)
    (estimates : list (option Z)) :
  known_nonzero estimates <> [] ->
  get_statistics language vacancies (map of_option estimates)
  = Ok (PList [language;
               PInt (len vacancies);
               PInt (len (known_nonzero estimates));
               PInt (total (known_nonzero estimates)
                     / len (known_nonzero estimates))]).
Proof.
  intros Hne. rewrite get_statistics_eq.
  destruct (known_nonzero estimates); [contradiction | reflexivity].
Qed.

Lemma statistics_of_estimates_witness :
  let vs := [PNone; PNone; PNone; PNone; PNone] in
  let es := [Some 1000; None; Some 2000; None; None] in
  known_nonzero es <> [] /\
  get_statistics (PStr "Go") vs (map of_option es)
  = Ok (PList [PStr "Go"; PInt 5; PInt 2; PInt 1500]).
Proof.
  split; [discriminate |].
  exact (statistics_of_estimates (PStr "Go")
           [PNone; PNone; PNone; PNone; PNone]
           [Some 1000; None; Some 2000; None; None]
           ltac:(discriminate)).
Defined.

(** C3, as worded, fails on an estimate of [0]: it is not absent, but the
    code leaves it out of both the count and the mean. *)
Lemma zero_estimate_not_processed :
  let vs := [PStr "v1"; PStr "v2"] in
  let es := [Some 0; Some 1000] in
  get_statistics (PStr "Go") vs (map of_option es)
  = Ok (PList [PStr "Go"; PInt 2; PInt 1; PInt 1000]) /\
  statistics (PStr "Go") vs es = PList [PStr "Go"; PInt 2; PInt 2; PInt 500] /\
  get_statistics (PStr "Go") vs (map of_option es)
  <> Ok (statistics (PStr "Go") vs es).
Proof.
  repeat split; try (vm_compute; reflexivity). vm_compute. discriminate.
Qed.

(** An estimate of [0] does come out of the estimator. *)
Example estimate_can_be_zero : predict_salary PNone (PInt 1) = Ok (PInt 0).
Proof. vm_compute. reflexivity. Qed.

Lemma known_nonzero_length (estimates : list (option Z)) :
  (length (known_nonzero estimates) <= length estimates)%nat.
Proof.
  unfold known_nonzero.
  induction estimates as [| [[| p | p] |] estimates IH];
    unfold omap in *; simpl; lia.
Qed.

Lemma filter_none_truthy (l : list value) :
  Forall (fun x => truthy x = false) l ->
  filter (fun x => truthy x = true) l = [].
Proof.
  induction 1 as [| x l Hx _ IH]; [reflexivity |].
  rewrite filter_cons_False by congruence. exact IH.
Qed.

(** Without a single estimate that counts, the mean divides by zero. *)
Lemma get_statistics_raises (language : value)
    (vacancies predict_salaries : list value) :
  Forall (fun x => truthy x = false) predict_salaries ->
  get_statistics language vacancies predict_salaries = Raise ZeroDivisionError.
Proof.
  intros Hall. unfold get_statistics. rewrite (filter_none_truthy _ Hall).
  reflexivity.
Qed.

(** C2: with no estimate at all, or only absent ones, [get_statistics]
    raises [ZeroDivisionError] instead of returning a row. *)
Theorem degenerate_aggregation_raises :
  get_statistics (PStr "Go") [] [] = Raise ZeroDivisionError /\
  get_statistics (PStr "Go") [PStr "v1"; PStr "v2"] [PNone; PNone]
  = Raise ZeroDivisionError.
Proof. split; apply get_statistics_raises; repeat constructor. Qed.

(** C5: with one estimate per vacancy, a row that is produced has
    [0 < processed <= found]; no row is produced exactly when no estimate
    counts, and then the function raises [ZeroDivisionError]. *)
Theorem processed_le_found (language : value) (vacancies : list value)
    (estimates : list (option Z)) :
  length vacancies = length estimates ->
  match get_statistics language vacancies (map of_option estimates) with
  | Ok row =>
      exists processed average : Z,
        row = PList [language; PInt (len vacancies); PInt processed;
                     PInt average] /\
        0 < processed <= len vacancies
  | Raise e => e = ZeroDivisionError /\ known_nonzero estimates = []
  end.
Proof.
  intros Hlen. rewrite get_statistics_eq.
  pose proof (known_nonzero_length estimates) as Hle.
  destruct (known_nonzero estimates) as [| z l]; [split; reflexivity |].
  eexists _, _. split; [reflexivity |].
  unfold len. rewrite Hlen. simpl length in *. lia.
Qed.

Lemma processed_le_found_witness :
  match get_statistics (PStr "Go") [PStr "v1"; PStr "v2"; PStr "v3"]
          (map of_option [Some 1000; None; Some 2000]) with
  | Ok row =>
      exists processed average : Z,
        row = PList [PStr "Go"; PInt (len [PStr "v1"; PStr "v2"; PStr "v3"]);
                     PInt processed; PInt average] /\
        0 < processed <= len [PStr "v1"; PStr "v2"; PStr "v3"]
  | Raise e =>
      e = ZeroDivisionError /\ known_nonzero [Some 1000; None; Some 2000] = []
  end.
Proof.
  exact (processed_le_found (PStr "Go") [PStr "v1"; PStr "v2"; PStr "v3"]
           [Some 1000; None; Some 2000] eq_refl).
Defined.

(** ** Paginated download *)

(** From any request on, the first one that does not end in a
    [ConnectionError]. *)
Lemma first_answer {B} (net : network B) (j : nat) :
  net j <> ConnectionError ->
  forall k, (k <= j)%nat ->
  exists n, (k + n <= j)%nat /\
            (forall i, (i < n)%nat -> net (k + i)%nat = ConnectionError) /\
            net (k + n)%nat <> ConnectionError.
Proof.
  intros Hj k Hk. remember (j - k)%nat as d eqn:Hd.
  revert k Hk Hd. induction d as [| d IH]; intros k Hk Hd.
  - exists 0%nat. replace (k + 0)%nat with j by lia.
    split; [lia | split; [lia | exact Hj]].
  - destruct (net k) eqn:E.
    1, 2, 4: exists 0%nat; rewrite Nat.add_0_r;
      (split; [lia | split; [lia | rewrite E; discriminate]]).
    destruct (IH (S k)) as (n & Hle & Hall & Hn); [lia | lia |].
    exists (S n). replace (k + S n)%nat with (S k + n)%nat by lia.
    split; [exact Hle | split; [| exact Hn]].
    intros [| i] Hi.
    + rewrite Nat.add_0_r. exact E.
    + replace (k + S i)%nat with (S k + i)%nat by lia. apply Hall. lia.
Qed.

Lemma retried_zero (phrase : option string) (page : Z) (w : world) :
  retried phrase page 0 w = w.
Proof.
  destruct w as [s t]. unfold retried. simpl.
  rewrite Nat.add_0_r, app_nil_r. reflexivity.
Qed.

Lemma retried_succ (phrase : option string) (page : Z) (n : nat) (w : world) :
  retried phrase page n (after_request w (failed_attempt phrase page))
  = retried phrase page (S n) w.
Proof.
  unfold retried, after_request. cbn [sent trace repeat concat].
  f_equal; [lia |]. simpl. rewrite <- app_assoc. reflexivity.
Qed.

Lemma requests_for_app (page : Z) (t u : list event) :
  requests_for page (t ++ u) = (requests_for page t + requests_for page u)%nat.
Proof.
  unfold requests_for. rewrite List.filter_app, length_app. reflexivity.
Qed.

Lemma slept_app (t u : list event) : slept (t ++ u) = slept t + slept u.
Proof. induction t as [| e t IH]; simpl; [reflexivity | rewrite IH; lia]. Qed.

(** [n] failed attempts on a page are [n] requests for it and [n] sleeps of
    30 seconds. *)
Lemma failed_attempts_counts (phrase : option string) (page : Z) (n : nat) :
  requests_for page (concat (repeat (failed_attempt phrase page) n)) = n /\
  slept (concat (repeat (failed_attempt phrase page) n)) = 30 * Z.of_nat n.
Proof.
  induction n as [| n [IHr IHs]]; [split; reflexivity |].
  cbn [repeat concat]. rewrite requests_for_app, slept_app, IHr, IHs.
  unfold requests_for. cbn [failed_attempt List.filter is_get].
  rewrite Z.eqb_refl. unfold slept.
  cbn [length failed_attempt fold_right seconds]. split; lia.
Qed.

Lemma retried_counts (phrase : option string) (page : Z) (n : nat) (w : world) :
  sent (retried phrase page n w) = (sent w + n)%nat /\
  requests_for page (trace (retried phrase page n w))
  = (requests_for page (trace w) + n)%nat /\
  slept (trace (retried phrase page n w)) = slept (trace w) + 30 * Z.of_nat n.
Proof.
  split; [reflexivity |]. unfold retried. cbn [trace].
  rewrite requests_for_app, slept_app.
  destruct (failed_attempts_counts phrase page n) as [-> ->]. split; reflexivity.
Qed.

Section HHProperties.
Variable language : string.
Variable net : network Z.

Let phrase : option string := Some (search_text language).

Lemma request_page_hh_mono (fuel fuel' : nat) page n vs w r :
  (fuel <= fuel')%nat ->
  request_page_hh language net fuel page n vs w = Some r ->
  request_page_hh language net fuel' page n vs w = Some r.
Proof.
  revert fuel' w. induction fuel as [| fuel IH]; intros fuel' w Hle H.
  - discriminate.
  - destruct fuel' as [| fuel']; [lia |]. cbn [request_page_hh] in *.
    destruct (net (sent w)); try exact H. apply IH; [lia | exact H].
Qed.

Lemma pages_hh_mono (fuel fuel' : nat) page n vs w r :
  (fuel <= fuel')%nat ->
  pages_hh language net fuel page n vs w = Some r ->
  pages_hh language net fuel' page n vs w = Some r.
Proof.
  revert fuel' page n vs w.
  induction fuel as [| fuel IH]; intros fuel' page n vs w Hle H.
  - destruct fuel'; cbn [pages_hh] in *;
      destruct (page <? n); (discriminate || exact H).
  - destruct fuel' as [| fuel']; [lia |]. cbn [pages_hh] in *.
    destruct (page <? n); [| exact H].
    destruct (request_page_hh language net fuel page n vs w)
      as [[[[n1 vs1] w1] | e] |] eqn:E; [| | discriminate].
    + rewrite (request_page_hh_mono fuel fuel' _ _ _ _ _ ltac:(lia) E).
      apply IH; [lia | exact H].
    + rewrite (request_page_hh_mono fuel fuel' _ _ _ _ _ ltac:(lia) E).
      exact H.
Qed.

(** Attempts that end in a [ConnectionError] repeat the request for the same
    page, after a sleep of 30 seconds, and change nothing else. *)
Lemma request_page_hh_retried (n fuel : nat) page pages vs w :
  (forall i, (i < n)%nat -> net (sent w + i)%nat = ConnectionError) ->
  request_page_hh language net (n + fuel) page pages vs w
  = request_page_hh language net fuel page pages vs (retried phrase page n w).
Proof.
  revert w. induction n as [| n IH]; intros w Hall.
  - rewrite retried_zero. reflexivity.
  - cbn [Nat.add request_page_hh].
    pose proof (Hall 0%nat ltac:(lia)) as H0. rewrite Nat.add_0_r in H0.
    rewrite H0. rewrite <- retried_succ. apply IH.
    intros i Hi. cbn [after_request sent].
    replace (S (sent w) + i)%nat with (sent w + S i)%nat by lia.
    apply Hall. lia.
Qed.

(** One turn of the outer loop, from the result of its inner loop. *)
Lemma pages_hh_turn (f1 f2 : nat) page n vs w n1 vs1 w1 r :
  page < n ->
  request_page_hh language net f1 page n vs w = Some (Ok (n1, vs1, w1)) ->
  pages_hh language net f2 (page + 1) n1 vs1 w1 = Some r ->
  pages_hh language net (S (Nat.max f1 f2)) page n vs w = Some r.
Proof.
  intros Hlt H1 H2. cbn [pages_hh].
  apply Z.ltb_lt in Hlt. rewrite Hlt.
  rewrite (request_page_hh_mono f1 (Nat.max f1 f2) _ _ _ _ _ ltac:(lia) H1).
  apply (pages_hh_mono f2); [lia | exact H2].
Qed.

Lemma pages_hh_raise (f1 : nat) page n vs w e :
  page < n ->
  request_page_hh language net f1 page n vs w = Some (Raise e) ->
  pages_hh language net (S f1) page n vs w = Some (Raise e).
Proof.
  intros Hlt H1. cbn [pages_hh]. apply Z.ltb_lt in Hlt. rewrite Hlt, H1.
  reflexivity.
Qed.
End HHProperties.

Lemma failed_attempts_other_page (phrase : option string) (page p : Z) (n : nat) :
  p <> page ->
  requests_for p (concat (repeat (failed_attempt phrase page) n)) = 0%nat.
Proof.
  intros Hne. induction n as [| n IH]; [reflexivity |].
  cbn [repeat concat]. rewrite requests_for_app, IH.
  unfold requests_for. cbn [failed_attempt List.filter is_get].
  apply Z.eqb_neq in Hne. rewrite Z.eqb_sym, Hne. reflexivity.
Qed.

Section HHRuns.
Variable language : string.
Variable net : network Z.

Let phrase : option string := Some (search_text language).

(** An [HTTPError]: one request, nothing appended, [number_of_pages] kept,
    and the outer loop goes on with the next page. *)
Lemma http_error_hh (fuel : nat) page n vs w :
  net (sent w) = HTTPError ->
  let w' := after_request w [LogInfo page; Get phrase page; WarnHTTPError page] in
  request_page_hh language net (S fuel) page n vs w = Some (Ok (n, vs, w')) /\
  (page < n ->
   pages_hh language net (S (S fuel)) page n vs w
   = pages_hh language net (S fuel) (page + 1) n vs w').
Proof.
  intros H w'.
  assert (E : request_page_hh language net (S fuel) page n vs w
              = Some (Ok (n, vs, w'))).
  { cbn [request_page_hh]. rewrite H. reflexivity. }
  split; [exact E |]. intros Hlt. apply Z.ltb_lt in Hlt.
  change (pages_hh language net (S (S fuel)) page n vs w)
    with (if page <? n
          then match request_page_hh language net (S fuel) page n vs w with
               | None => None
               | Some (Raise e) => Some (Raise e)
               | Some (Ok (n1, vs1, w1)) =>
                   pages_hh language net (S fuel) (page + 1) n1 vs1 w1
               end
          else Some (Ok (Exit page n vs w))).
  rewrite Hlt, E. reflexivity.
Qed.

(** [k] connection errors and then an answer: [k + 1] requests for the
    page, [k] sleeps of 30 seconds, the items appended once, and the outer
    loop goes on with the next page. *)
Lemma answer_after_retries_hh (k fuel : nat) page n vs w items pages :
  (forall i, (i < k)%nat -> net (sent w + i)%nat = ConnectionError) ->
  net (sent w + k)%nat = Response items pages ->
  let w' := after_request (retried phrase page k w)
              [LogInfo page; Get phrase page] in
  request_page_hh language net (k + S fuel) page n vs w
  = Some (Ok (pages, vs ++ items, w')) /\
  (page < n ->
   pages_hh language net (S (k + S fuel)) page n vs w
   = pages_hh language net (k + S fuel) (page + 1) pages (vs ++ items) w') /\
  sent w' = (sent w + k + 1)%nat /\
  requests_for page (trace w') = (requests_for page (trace w) + k + 1)%nat /\
  slept (trace w') = slept (trace w) + 30 * Z.of_nat k.
Proof.
  intros Hall Hk w'.
  assert (E : request_page_hh language net (k + S fuel) page n vs w
              = Some (Ok (pages, vs ++ items, w'))).
  { rewrite request_page_hh_retried by exact Hall.
    cbn [request_page_hh retried sent]. rewrite Hk. reflexivity. }
  split; [exact E |]. split.
  - intros Hlt. apply Z.ltb_lt in Hlt.
    change (pages_hh language net (S (k + S fuel)) page n vs w)
      with (if page <? n
            then match request_page_hh language net (k + S fuel) page n vs w with
                 | None => None
                 | Some (Raise e) => Some (Raise e)
                 | Some (Ok (n1, vs1, w1)) =>
                     pages_hh language net (k + S fuel) (page + 1) n1 vs1 w1
                 end
            else Some (Ok (Exit page n vs w))).
    rewrite Hlt, E. reflexivity.
  - destruct (retried_counts phrase page k w) as (Hs & Hr & Hz).
    subst w'. unfold after_request. cbn [sent trace].
    rewrite requests_for_app, slept_app, Hs, Hr, Hz.
    unfold requests_for, slept.
    cbn [List.filter is_get length fold_right seconds].
    rewrite Z.eqb_refl. cbn [length]. repeat split; lia.
Qed.

(** With bounded declared page counts and no endless run of connection
    errors, the outer loop ends: by leaving the loop with
    [number_of_pages <= page], or by an exception the request let
    through. *)
Lemma pages_hh_terminates (bound : Z) :
  (forall k, exists j, (k <= j)%nat /\ net j <> ConnectionError) ->
  (forall k items pages, net k = Response items pages -> pages <= bound) ->
  forall (d : nat) page n vs w,
    n <= bound ->
    bound - page <= Z.of_nat d ->
    exists fuel r,
      pages_hh language net fuel page n vs w = Some r /\
      match r with
      | Ok x => last_pagination x <= last_page x
      | Raise e => exists k, net k = Fails e
      end.
Proof.
  intros Hev Hbound. induction d as [| d IH]; intros page n vs w Hn Hd.
  - exists 0%nat, (Ok (Exit page n vs w)). cbn [pages_hh].
    destruct (page <? n) eqn:E; [apply Z.ltb_lt in E; lia |].
    split; [reflexivity | cbn; lia].
  - destruct (page <? n) eqn:E.
    2: { exists 0%nat, (Ok (Exit page n vs w)). cbn [pages_hh]. rewrite E.
         apply Z.ltb_ge in E. split; [reflexivity | exact E]. }
    apply Z.ltb_lt in E.
    destruct (Hev (sent w)) as (j & Hj & Hne).
    destruct (first_answer net j Hne (sent w) Hj) as (k & _ & Hall & Hk).
    pose proof (request_page_hh_retried language net k 1 page n vs w Hall)
      as Hin.
    cbn [request_page_hh retried sent] in Hin.
    destruct (net (sent w + k)%nat) as [items pages | | | e] eqn:Eo.
    + destruct (IH (page + 1) pages (vs ++ items)
                  (after_request (retried phrase page k w)
                     [LogInfo page; Get phrase page]))
        as (f2 & r & Hr & Hgood);
        [exact (Hbound _ _ _ Eo) | lia |].
      exists (S (Nat.max (k + 1) f2)), r. split; [| exact Hgood].
      exact (pages_hh_turn language net _ _ _ _ _ _ _ _ _ _ E Hin Hr).
    + destruct (IH (page + 1) n vs
                  (after_request (retried phrase page k w)
                     ([LogInfo page; Get phrase page] ++ [WarnHTTPError page])))
        as (f2 & r & Hr & Hgood); [exact Hn | lia |].
      exists (S (Nat.max (k + 1) f2)), r. split; [| exact Hgood].
      exact (pages_hh_turn language net _ _ _ _ _ _ _ _ _ _ E Hin Hr).
    + contradiction.
    + exists (S (k + 1)), (Raise e). split; [| exists (sent w + k)%nat; exact Eo].
      exact (pages_hh_raise language net _ _ _ _ _ _ E Hin).
Qed.

End HHRuns.

Section SJProperties.
Variable language : string.
Variable net : network bool.

Let phrase : option string := keyword language.

Lemma request_page_sj_mono (fuel fuel' : nat) page more vs w r :
  (fuel <= fuel')%nat ->
  request_page_sj language net fuel page more vs w = Some r ->
  request_page_sj language net fuel' page more vs w = Some r.
Proof.
  revert fuel' w. induction fuel as [| fuel IH]; intros fuel' w Hle H.
  - discriminate.
  - destruct fuel' as [| fuel']; [lia |]. cbn [request_page_sj] in *.
    destruct (net (sent w)); try exact H. apply IH; [lia | exact H].
Qed.

Lemma pages_sj_mono (fuel fuel' : nat) page more vs w r :
  (fuel <= fuel')%nat ->
  pages_sj language net fuel page more vs w = Some r ->
  pages_sj language net fuel' page more vs w = Some r.
Proof.
  revert fuel' page more vs w.
  induction fuel as [| fuel IH]; intros fuel' page more vs w Hle H.
  - destruct fuel'; cbn [pages_sj] in *;
      destruct more; (discriminate || exact H).
  - destruct fuel' as [| fuel']; [lia |]. cbn [pages_sj] in *.
    destruct more; [| exact H].
    destruct (request_page_sj language net fuel page true vs w)
      as [[[[m1 vs1] w1] | e] |] eqn:E; [| | discriminate].
    + rewrite (request_page_sj_mono fuel fuel' _ _ _ _ _ ltac:(lia) E).
      apply IH; [lia | exact H].
    + rewrite (request_page_sj_mono fuel fuel' _ _ _ _ _ ltac:(lia) E).
      exact H.
Qed.

Lemma request_page_sj_retried (n fuel : nat) page more vs w :
  (forall i, (i < n)%nat -> net (sent w + i)%nat = ConnectionError) ->
  request_page_sj language net (n + fuel) page more vs w
  = request_page_sj language net fuel page more vs (retried phrase page n w).
Proof.
  revert w. induction n as [| n IH]; intros w Hall.
  - rewrite retried_zero. reflexivity.
  - cbn [Nat.add request_page_sj].
    pose proof (Hall 0%nat ltac:(lia)) as H0. rewrite Nat.add_0_r in H0.
    rewrite H0. rewrite <- retried_succ. apply IH.
    intros i Hi. cbn [after_request sent].
    replace (S (sent w) + i)%nat with (sent w + S i)%nat by lia.
    apply Hall. lia.
Qed.

Lemma pages_sj_turn (f1 f2 : nat) page vs w m1 vs1 w1 r :
  request_page_sj language net f1 page true vs w = Some (Ok (m1, vs1, w1)) ->
  pages_sj language net f2 (page + 1) m1 vs1 w1 = Some r ->
  pages_sj language net (S (Nat.max f1 f2)) page true vs w = Some r.
Proof.
  intros H1 H2. cbn [pages_sj].
  rewrite (request_page_sj_mono f1 (Nat.max f1 f2) _ _ _ _ _ ltac:(lia) H1).
  apply (pages_sj_mono f2); [lia | exact H2].
Qed.

Lemma pages_sj_raise (f1 : nat) page vs w e :
  request_page_sj language net f1 page true vs w = Some (Raise e) ->
  pages_sj language net (S f1) page true vs w = Some (Raise e).
Proof. intros H1. cbn [pages_sj]. rewrite H1. reflexivity. Qed.

(** An [HTTPError]: one request, nothing appended, [more_pages] kept, and
    the outer loop goes on with the next page. *)
Lemma http_error_sj (fuel : nat) page more vs w :
  net (sent w) = HTTPError ->
  let w' := after_request w [LogInfo page; Get phrase page; WarnHTTPError page] in
  request_page_sj language net (S fuel) page more vs w
  = Some (Ok (more, vs, w')) /\
  (more = true ->
   pages_sj language net (S (S fuel)) page more vs w
   = pages_sj language net (S fuel) (page + 1) more vs w').
Proof.
  intros H w'.
  assert (E : request_page_sj language net (S fuel) page more vs w
              = Some (Ok (more, vs, w'))).
  { cbn [request_page_sj]. rewrite H. reflexivity. }
  split; [exact E |]. intros ->.
  change (pages_sj language net (S (S fuel)) page true vs w)
    with (match request_page_sj language net (S fuel) page true vs w with
          | None => None
          | Some (Raise e) => Some (Raise e)
          | Some (Ok (m1, vs1, w1)) =>
              pages_sj language net (S fuel) (page + 1) m1 vs1 w1
          end).
  rewrite E. reflexivity.
Qed.

Lemma answer_after_retries_sj (k fuel : nat) page more vs w objects more' :
  (forall i, (i < k)%nat -> net (sent w + i)%nat = ConnectionError) ->
  net (sent w + k)%nat = Response objects more' ->
  let w' := after_request (retried phrase page k w)
              [LogInfo page; Get phrase page] in
  request_page_sj language net (k + S fuel) page more vs w
  = Some (Ok (more', vs ++ objects, w')) /\
  (more = true ->
   pages_sj language net (S (k + S fuel)) page more vs w
   = pages_sj language net (k + S fuel) (page + 1) more' (vs ++ objects) w') /\
  sent w' = (sent w + k + 1)%nat /\
  requests_for page (trace w') = (requests_for page (trace w) + k + 1)%nat /\
  slept (trace w') = slept (trace w) + 30 * Z.of_nat k.
Proof.
  intros Hall Hk w'.
  assert (E : request_page_sj language net (k + S fuel) page more vs w
              = Some (Ok (more', vs ++ objects, w'))).
  { rewrite request_page_sj_retried by exact Hall.
    cbn [request_page_sj retried sent]. rewrite Hk. reflexivity. }
  split; [exact E |]. split.
  - intros ->.
    change (pages_sj language net (S (k + S fuel)) page true vs w)
      with (match request_page_sj language net (k + S fuel) page true vs w with
            | None => None
            | Some (Raise e) => Some (Raise e)
            | Some (Ok (m1, vs1, w1)) =>
                pages_sj language net (k + S fuel) (page + 1) m1 vs1 w1
            end).
    rewrite E. reflexivity.
  - destruct (retried_counts phrase page k w) as (Hs & Hr & Hz).
    subst w'. unfold after_request. cbn [sent trace].
    rewrite requests_for_app, slept_app, Hs, Hr, Hz.
    unfold requests_for, slept.
    cbn [List.filter is_get length fold_right seconds].
    rewrite Z.eqb_refl. cbn [length]. repeat split; lia.
Qed.

(** Once some request is answered with [more = false], the outer loop
    ends: by leaving the loop with [more_pages = False] no later than that
    request, or by an exception a request let through. *)
Lemma pages_sj_terminates (j : nat) (objects : list value) :
  net j = Response objects false ->
  forall (d : nat) page vs w,
    (sent w <= j < sent w + d)%nat ->
    exists fuel r,
      pages_sj language net fuel page true vs w = Some r /\
      match r with
      | Ok x => last_pagination x = false /\ (sent (final x) <= S j)%nat
      | Raise e => exists k, net k = Fails e
      end.
Proof.
  intros Hj. assert (Hne : net j <> ConnectionError) by (rewrite Hj; discriminate).
  induction d as [| d IH]; intros page vs w Hd; [lia |].
  destruct (first_answer net j Hne (sent w) ltac:(lia)) as (k & Hle & Hall & Hk).
  pose proof (request_page_sj_retried k 1 page true vs w Hall) as Hin.
  cbn [request_page_sj retried sent] in Hin.
  destruct (net (sent w + k)%nat) as [objs more | | | e] eqn:Eo.
  - set (w' := after_request (retried phrase page k w)
                 [LogInfo page; Get phrase page]) in *.
    assert (Hs : sent w' = S (sent w + k)%nat) by reflexivity.
    destruct more.
    + assert (Hlt : (sent w + k < j)%nat).
      { destruct (Nat.eq_dec (sent w + k)%nat j) as [Heq | Hneq]; [| lia].
        rewrite Heq, Hj in Eo. discriminate. }
      destruct (IH (page + 1) (vs ++ objs) w') as (f2 & r & Hr & Hgood);
        [lia |].
      exists (S (Nat.max (k + 1) f2)), r. split; [| exact Hgood].
      exact (pages_sj_turn _ _ _ _ _ _ _ _ _ Hin Hr).
    + exists (S (Nat.max (k + 1) 0)), (Ok (Exit (page + 1) false (vs ++ objs) w')).
      split; [| cbn; split; [reflexivity | lia]].
      apply (pages_sj_turn _ _ _ _ _ _ _ _ _ Hin). reflexivity.
  - set (w' := after_request (retried phrase page k w)
                 ([LogInfo page; Get phrase page] ++ [WarnHTTPError page])) in *.
    assert (Hs : sent w' = S (sent w + k)%nat) by reflexivity.
    assert (Hlt : (sent w + k < j)%nat).
    { destruct (Nat.eq_dec (sent w + k)%nat j) as [Heq | Hneq]; [| lia].
      rewrite Heq, Hj in Eo. discriminate. }
    destruct (IH (page + 1) vs w') as (f2 & r & Hr & Hgood); [lia |].
    exists (S (Nat.max (k + 1) f2)), r. split; [| exact Hgood].
    exact (pages_sj_turn _ _ _ _ _ _ _ _ _ Hin Hr).
  - contradiction.
  - exists (S (k + 1)), (Raise e). split; [| exists (sent w + k)%nat; exact Eo].
    exact (pages_sj_raise _ _ _ _ _ Hin).
Qed.
End SJProperties.

(** C6: an HTTP error on the first page of hh.ru ends the whole download.
    The site has five pages and answers the request for page 0 with an HTTP
    error status: the page is not retried and nothing is appended, the page
    index becomes 1, and since [number_of_pages] still has its initial value
    1 the loop is left: the download returns the empty list after this one
    request, and pages 1 to 4 are never asked for.  The same error on a
    later page of hh.ru, or on page 0 of superjob.ru, is followed by the
    request for the next page. *)
Theorem http_error_on_first_page_halts :
  let site : network Z :=
    fun n => match n with
             | 0%nat => HTTPError
             | _ => Response [PStr "v"] 5
             end in
  let later : network Z :=
    fun n => match n with
             | 1%nat => HTTPError
             | _ => Response [PStr "v"] 3
             end in
  let sj : network bool :=
    fun n => match n with
             | 0%nat => HTTPError
             | 1%nat => Response [PStr "v"] true
             | _ => Response [PStr "v"] false
             end in
  let hh_get := Get (Some (search_text "Go")) in
  (forall fuel,
      run_hh "Go" site (S (S fuel))
      = Some (Ok (Exit 1 1 []
                    (World 1 [LogInfo 0; hh_get 0; WarnHTTPError 0])))) /\
  (forall fuel, download_vacancies_hh "Go" site (S (S fuel)) = Some (Ok [])) /\
  run_hh "Go" later 4
  = Some (Ok (Exit 3 3 [PStr "v"; PStr "v"]
                (World 3 [LogInfo 0; hh_get 0;
                          LogInfo 1; hh_get 1; WarnHTTPError 1;
                          LogInfo 2; hh_get 2]))) /\
  run_sj "Go" sj 4
  = Some (Ok (Exit 3 false [PStr "v"; PStr "v"]
                (World 3 [LogInfo 0; Get (keyword "Go") 0; WarnHTTPError 0;
                          LogInfo 1; Get (keyword "Go") 1;
                          LogInfo 2; Get (keyword "Go") 2]))).
Proof.
  intros site later sj hh_get.
  assert (E : forall fuel,
             run_hh "Go" site (S (S fuel))
             = Some (Ok (Exit 1 1 []
                           (World 1 [LogInfo 0; hh_get 0; WarnHTTPError 0]))))
    by (intros fuel; reflexivity).
  split; [exact E |]. split.
  - intros fuel. unfold download_vacancies_hh. rewrite E. reflexivity.
  - split; vm_compute; reflexivity.
Qed.

(** C7: when the request for a page ends [k] times in a connection error and
    then succeeds, the same page is requested [k + 1] times, each failure is
    followed by a sleep of 30 seconds, and the items of the answer are
    appended once; the outer loop then goes on with the next page.  Both
    sites. *)
Theorem connection_error_retries_page :
  (forall (language : string) (net : network Z) (k fuel : nat)
          (page number_of_pages : Z) (vs : list value) (w : world)
          (items : list value) (pages : Z),
      (forall i, (i < k)%nat -> net (sent w + i)%nat = ConnectionError) ->
      net (sent w + k)%nat = Response items pages ->
      let w' := after_request
                  (retried (Some (search_text language)) page k w)
                  [LogInfo page; Get (Some (search_text language)) page] in
      request_page_hh language net (k + S fuel) page number_of_pages vs w
      = Some (Ok (pages, vs ++ items, w')) /\
      (page < number_of_pages ->
       pages_hh language net (S (k + S fuel)) page number_of_pages vs w
       = pages_hh language net (k + S fuel) (page + 1) pages (vs ++ items) w') /\
      sent w' = (sent w + k + 1)%nat /\
      requests_for page (trace w') = (requests_for page (trace w) + k + 1)%nat /\
      slept (trace w') = slept (trace w) + 30 * Z.of_nat k) /\
  (forall (language : string) (net : network bool) (k fuel : nat)
          (page : Z) (more_pages : bool) (vs : list value) (w : world)
          (objects : list value) (more : bool),
      (forall i, (i < k)%nat -> net (sent w + i)%nat = ConnectionError) ->
      net (sent w + k)%nat = Response objects more ->
      let w' := after_request
                  (retried (keyword language) page k w)
                  [LogInfo page; Get (keyword language) page] in
      request_page_sj language net (k + S fuel) page more_pages vs w
      = Some (Ok (more, vs ++ objects, w')) /\
      (more_pages = true ->
       pages_sj language net (S (k + S fuel)) page more_pages vs w
       = pages_sj language net (k + S fuel) (page + 1) more (vs ++ objects) w') /\
      sent w' = (sent w + k + 1)%nat /\
      requests_for page (trace w') = (requests_for page (trace w) + k + 1)%nat /\
      slept (trace w') = slept (trace w) + 30 * Z.of_nat k).
Proof.
  split; intros language net k fuel page b vs w items b' Hall Hk.
  - exact (answer_after_retries_hh language net k fuel page b vs w items b' Hall Hk).
  - exact (answer_after_retries_sj language net k fuel page b vs w items b' Hall Hk).
Qed.

Lemma connection_error_retries_page_witness :
  let hh : network Z :=
    fun n => match n with
             | 0%nat => ConnectionError
             | _ => Response [PStr "v1"] 1
             end in
  let sj : network bool :=
    fun n => match n with
             | 0%nat | 1%nat => ConnectionError
             | _ => Response [PStr "v1"; PStr "v2"] false
             end in
  (exists w',
      request_page_hh "Go" hh 2 0 1 [] start = Some (Ok (1, [PStr "v1"], w')) /\
      sent w' = 2%nat /\ requests_for 0 (trace w') = 2%nat /\
      slept (trace w') = 30) /\
  (exists w',
      request_page_sj "Go" sj 3 0 true [] start
      = Some (Ok (false, [PStr "v1"; PStr "v2"], w')) /\
      sent w' = 3%nat /\ requests_for 0 (trace w') = 3%nat /\
      slept (trace w') = 60) /\
  download_vacancies_sj "Go" sj 4 = Some (Ok [PStr "v1"; PStr "v2"]).
Proof.
  intros hh sj.
  assert (Hhh : forall i, (i < 1)%nat -> hh (sent start + i)%nat = ConnectionError).
  { intros [| i] Hi; [reflexivity | lia]. }
  assert (Hsj : forall i, (i < 2)%nat -> sj (sent start + i)%nat = ConnectionError).
  { intros [| [| i]] Hi; [reflexivity | reflexivity | lia]. }
  split; [| split; [| vm_compute; reflexivity]].
  - destruct (proj1 connection_error_retries_page "Go" hh 1%nat 0%nat 0 1 []
                start [PStr "v1"] 1 Hhh eq_refl)
      as (H1 & _ & H3 & H4 & H5).
    eexists. split; [exact H1 |]. split; [exact H3 |]. split; [exact H4 | exact H5].
  - destruct (proj2 connection_error_retries_page "Go" sj 2%nat 0%nat 0 true []
                start [PStr "v1"; PStr "v2"] false Hsj eq_refl)
      as (H1 & _ & H3 & H4 & H5).
    eexists. split; [exact H1 |]. split; [exact H3 |]. split; [exact H4 | exact H5].
Defined.

(** Empty pages: three pages declared, none with an item. *)
Example empty_pages_hh :
  run_hh "Go" (fun _ => Response [] 3) 4
  = Some (Ok (Exit 3 3 []
                (World 3 [LogInfo 0; Get (Some (search_text "Go")) 0;
                          LogInfo 1; Get (Some (search_text "Go")) 1;
                          LogInfo 2; Get (Some (search_text "Go")) 2]))).
Proof. vm_compute. reflexivity. Qed.

Example empty_pages_sj :
  run_sj "" (fun n => Response [] (Nat.ltb n 2)) 4
  = Some (Ok (Exit 3 false []
                (World 3 [LogInfo 0; Get None 0; LogInfo 1; Get None 1;
                          LogInfo 2; Get None 2]))).
Proof. vm_compute. reflexivity. Qed.

(** Downloads that never return.  With page counts that grow with every
    answer, with connection errors for ever, or (superjob.ru) with answers
    that never report [more = false], be they empty pages or HTTP errors, no
    amount of fuel lets the download return. *)
Lemma growing_page_count_never_ends (language : string) (fuel : nat) :
  run_hh language (fun n => Response [] (Z.of_nat n + 2)) fuel = None.
Proof.
  unfold run_hh.
  assert (H : forall w vs,
             pages_hh language (fun n => Response [] (Z.of_nat n + 2)) fuel
               (Z.of_nat (sent w)) (Z.of_nat (sent w) + 1) vs w = None).
  { induction fuel as [| fuel IH]; intros w vs; cbn [pages_hh].
    - replace (Z.of_nat (sent w) <? Z.of_nat (sent w) + 1) with true
        by (symmetry; apply Z.ltb_lt; lia).
      reflexivity.
    - replace (Z.of_nat (sent w) <? Z.of_nat (sent w) + 1) with true
        by (symmetry; apply Z.ltb_lt; lia).
      destruct fuel as [| fuel']; [reflexivity |]. cbn [request_page_hh].
      specialize (IH (after_request w
                        [LogInfo (Z.of_nat (sent w));
                         Get (Some (search_text language)) (Z.of_nat (sent w))])
                     (vs ++ [])).
      cbn [after_request sent] in IH.
      replace (Z.of_nat (S (sent w))) with (Z.of_nat (sent w) + 1) in IH by lia.
      replace (Z.of_nat (sent w) + 1 + 1) with (Z.of_nat (sent w) + 2) in IH by lia.
      exact IH. }
  exact (H start []).
Qed.

Lemma connection_errors_never_end (language : string) (fuel : nat) :
  run_hh language (fun _ => ConnectionError) fuel = None /\
  run_sj language (fun _ => ConnectionError) fuel = None.
Proof.
  assert (Hhh : forall f page n vs w,
             request_page_hh language (fun _ => ConnectionError) f page n vs w
             = None).
  { induction f as [| f IH]; intros page n vs w; [reflexivity | apply IH]. }
  assert (Hsj : forall f page m vs w,
             request_page_sj language (fun _ => ConnectionError) f page m vs w
             = None).
  { induction f as [| f IH]; intros page m vs w; [reflexivity | apply IH]. }
  split.
  - unfold run_hh. destruct fuel as [| fuel]; cbn [pages_hh]; [reflexivity |].
    change (0 <? 1) with true. cbv iota. rewrite Hhh. reflexivity.
  - unfold run_sj. destruct fuel as [| fuel]; cbn [pages_sj]; [reflexivity |].
    rewrite Hsj. reflexivity.
Qed.

Lemma always_more_never_ends (language : string) (fuel : nat) :
  run_sj language (fun _ => Response [] true) fuel = None /\
  run_sj language (fun _ => HTTPError) fuel = None.
Proof.
  assert (H : forall net : network bool,
             (forall n, net n = Response [] true \/ net n = HTTPError) ->
             forall page vs w,
               pages_sj language net fuel page true vs w = None).
  { intros net Hnet.
    induction fuel as [| fuel IH]; intros page vs w; cbn [pages_sj];
      [reflexivity |].
    destruct fuel as [| fuel']; [reflexivity |]. cbn [request_page_sj].
    destruct (Hnet (sent w)) as [-> | ->]; apply IH. }
  split; apply H; intros n; [left | right]; reflexivity.
Qed.

(** C10: if the request for page 0 of hh.ru is answered with an HTTP error
    status (after any number of connection errors), the download returns
    the empty list: [number_of_pages] is still 1 when the loop is left, and
    only page 0 was ever requested. *)
Theorem first_page_http_error (language : string) (net : network Z)
    (k fuel : nat) :
  (forall i, (i < k)%nat -> net i = ConnectionError) ->
  net k = HTTPError ->
  let w' := after_request (retried (Some (search_text language)) 0 k start)
              [LogInfo 0; Get (Some (search_text language)) 0; WarnHTTPError 0] in
  run_hh language net (S (k + S fuel)) = Some (Ok (Exit 1 1 [] w')) /\
  download_vacancies_hh language net (S (k + S fuel)) = Some (Ok []) /\
  requests_for 0 (trace w') = S k /\
  (forall p, p <> 0 -> requests_for p (trace w') = 0%nat).
Proof.
  intros Hall Hk w'.
  assert (E : run_hh language net (S (k + S fuel)) = Some (Ok (Exit 1 1 [] w'))).
  { unfold run_hh. cbn [pages_hh]. change (0 <? 1) with true. cbv iota.
    rewrite request_page_hh_retried by exact Hall.
    cbn [request_page_hh retried sent start].
    rewrite Nat.add_0_l, Hk. cbv iota beta.
    change (0 + 1) with 1.
    destruct (k + S fuel)%nat; reflexivity. }
  split; [exact E |].
  split; [unfold download_vacancies_hh; rewrite E; reflexivity |].
  subst w'. unfold after_request, retried. cbn [trace start app].
  split.
  - rewrite requests_for_app.
    destruct (failed_attempts_counts (Some (search_text language)) 0 k)
      as [-> _].
    cbn. lia.
  - intros p Hp.
    rewrite requests_for_app, failed_attempts_other_page by exact Hp.
    unfold requests_for. cbn [List.filter is_get].
    apply Z.eqb_neq in Hp. rewrite Z.eqb_sym, Hp. reflexivity.
Qed.

Lemma first_page_http_error_witness :
  let net : network Z :=
    fun n => match n with
             | 0%nat => HTTPError
             | _ => Response [PStr "v"] 5
             end in
  net 0%nat = HTTPError /\
  download_vacancies_hh "Go" net 2 = Some (Ok []).
Proof.
  intros net. split; [reflexivity |].
  assert (Hall : forall i, (i < 0)%nat -> net i = ConnectionError) by (intros i Hi; lia).
  exact (proj1 (proj2 (first_page_http_error "Go" net 0%nat 0%nat Hall eq_refl))).
Defined.

(** ** One row, end to end *)

(** One page with a ruble range and a dollar range: two vacancies found, one
    processed, the midpoint as the average. *)
Example row_of_two_vacancies :
  let ruble_range :=
    PDict {[ "salary" := PDict {[ "currency" := PStr "RUR";
                                  "from" := PInt 100; "to" := PInt 200 ]} ]} in
  let dollar_range :=
    PDict {[ "salary" := PDict {[ "currency" := PStr "USD";
                                  "from" := PInt 100; "to" := PInt 200 ]} ]} in
  row_hh "Go" (fun _ => Response [ruble_range; dollar_range] 1) 2
  = Some (Ok (PList [PStr "Go"; PInt 2; PInt 1; PInt 150])).
Proof. vm_compute. reflexivity. Qed.

(** The division by zero is reached from [main]: an HTTP error on page 0
    leaves no vacancy, and a page without a ruble salary leaves no
    estimate. *)
Example row_without_estimate :
  row_hh "Go" (fun _ => HTTPError) 2 = Some (Raise ZeroDivisionError) /\
  row_sj "Go" (fun _ => Response [PDict {[ "currency" := PStr "usd" ]}] false) 2
  = Some (Raise ZeroDivisionError).
Proof. split; vm_compute; reflexivity. Qed.

(** * Further properties *)

Import Script Report.

(*THMS*)
(** ** What a download leaves behind *)

Lemma collected_retried {B} (net : network B) (m k : nat) :
  (forall i, (i < k)%nat -> net (m + i)%nat = ConnectionError) ->
  collected net (m + k) = collected net m /\
  connection_errors net (m + k) = (connection_errors net m + k)%nat.
Proof.
  induction k as [| k IH]; intros Hall.
  - rewrite Nat.add_0_r. split; [reflexivity | lia].
  - destruct IH as [IHc IHn]; [intros i Hi; apply Hall; lia |].
    replace (m + S k)%nat with (S (m + k)) by lia.
    cbn [collected connection_errors].
    rewrite (Hall k ltac:(lia)), IHc, IHn. cbn. rewrite app_nil_r.
    split; [reflexivity | lia].
Qed.

Section HHInversion.
Variable language : string.
Variable net : network Z.

Let phrase : option string := Some (search_text language).

(** How the inner loop was left: after [k] connection errors, by the
    outcome of the next request. *)
Lemma request_page_hh_inv (fuel : nat) page n vs w r :
  request_page_hh language net fuel page n vs w = Some r ->
  exists k,
    (k < fuel)%nat /\
    (forall i, (i < k)%nat -> net (sent w + i)%nat = ConnectionError) /\
    let w' := after_request (retried phrase page k w)
                (last_attempt phrase page (net (sent w + k)%nat)) in
    match net (sent w + k)%nat with
    | Response items pages => r = Ok (pages, vs ++ items, w')
    | HTTPError => r = Ok (n, vs, w')
    | ConnectionError => False
    | Fails e => r = Raise e
    end.
Proof.
  revert w. induction fuel as [| fuel IH]; intros w H; [discriminate |].
  cbn [request_page_hh] in H.
  destruct (net (sent w)) as [items pages | | | e] eqn:E.
  1, 2, 4: exists 0%nat; rewrite Nat.add_0_r, E, retried_zero;
    (split; [lia |]); (split; [intros i Hi; lia |]); cbn;
    injection H as <-; reflexivity.
  apply IH in H as (k & Hk & Hall & Hr).
  exists (S k). split; [lia |]. split.
  - intros [| i] Hi; [rewrite Nat.add_0_r; exact E |].
    replace (sent w + S i)%nat with (S (sent w) + i)%nat by lia.
    apply Hall. lia.
  - cbn [after_request sent] in Hr.
    replace (sent w + S k)%nat with (S (sent w) + k)%nat by lia.
    change (after_request w ([LogInfo page; Get (Some (search_text language)) page]
                             ++ [WarnConnectionError page; Sleep 30]))
      with (after_request w (failed_attempt phrase page)) in Hr.
    rewrite retried_succ in Hr. exact Hr.
Qed.
End HHInversion.

Lemma requests_for_last_attempt {B} (phrase : option string) (page q : Z)
    (o : outcome B) :
  requests_for q (last_attempt phrase page o)
  = if q =? page then 1%nat else 0%nat.
Proof.
  unfold requests_for. rewrite (Z.eqb_sym q page).
  destruct o; cbn [last_attempt List.filter is_get];
    destruct (page =? q); reflexivity.
Qed.

Lemma requests_for_retried (phrase : option string) (page q : Z) (k : nat)
    (w : world) :
  requests_for q (trace (retried phrase page k w))
  = (requests_for q (trace w) + (if (q =? page)%Z then k else 0))%nat.
Proof.
  destruct (Z.eqb_spec q page) as [-> | Hne].
  - apply retried_counts.
  - unfold retried. cbn [trace]. rewrite requests_for_app.
    rewrite failed_attempts_other_page by exact Hne. reflexivity.
Qed.

(** The counts after one turn of the outer loop: [k] failed attempts and
    the attempt that ended the inner loop. *)
Lemma turn_counts {B} (phrase : option string) (page : Z) (k : nat) (w : world)
    (o : outcome B) :
  let w' := after_request (retried phrase page k w) (last_attempt phrase page o) in
  sent w' = S (sent w + k) /\
  slept (trace w') = slept (trace w) + 30 * Z.of_nat k /\
  forall q, requests_for q (trace w')
            = (requests_for q (trace w) + (if (q =? page)%Z then S k else 0))%nat.
Proof.
  intros w'. subst w'. unfold after_request. cbn [sent trace].
  destruct (retried_counts phrase page k w) as (Hs & _ & Hz).
  split; [rewrite Hs; reflexivity |]. split.
  - rewrite slept_app, Hz. destruct o; cbn; lia.
  - intros q.
    rewrite requests_for_app, requests_for_retried, requests_for_last_attempt.
    destruct (q =? page); lia.
Qed.

Lemma accounted_start {B} (net : network B) : accounted net 0 [] start.
Proof.
  unfold accounted. cbn. repeat split; try lia.
Qed.

Lemma accounted_turn {B} (net : network B) (phrase : option string) (page : Z)
    (vs : list value) (w : world) (k : nat) :
  accounted net page vs w ->
  (forall i, (i < k)%nat -> net (sent w + i)%nat = ConnectionError) ->
  net (sent w + k)%nat <> ConnectionError ->
  accounted net (page + 1) (vs ++ items_of (net (sent w + k)%nat))
    (after_request (retried phrase page k w)
       (last_attempt phrase page (net (sent w + k)%nat))).
Proof.
  intros (Hvs & Hsent & Hslept & Hpage & Hreq) Hall Hk.
  destruct (turn_counts phrase page k w (net (sent w + k)%nat)) as (Hs & Hz & Hr).
  destruct (collected_retried net (sent w) k Hall) as [Hc Hn].
  unfold accounted. rewrite Hs, Hz. cbn [collected connection_errors].
  rewrite Hc, Hn, <- Hvs.
  assert (He : is_connection_error (net (sent w + k)%nat) = false)
    by (destruct (net (sent w + k)%nat); [reflexivity.. | contradiction | reflexivity]).
  rewrite He. split; [reflexivity |]. split; [lia |]. split; [lia |].
  split; [lia |]. intros q. rewrite Hr. specialize (Hreq q).
  destruct (Z.eqb_spec q page); lia.
Qed.

Section HHAccounting.
Variable language : string.
Variable net : network Z.

Let phrase : option string := Some (search_text language).

(** The accounting holds when the outer loop is left, and at least one page
    was visited if the loop was entered. *)
Lemma pages_hh_accounted (fuel : nat) :
  forall page n vs w x,
    accounted net page vs w ->
    pages_hh language net fuel page n vs w = Some (Ok x) ->
    accounted net (last_page x) (vacancies x) (final x) /\
    page <= last_page x /\
    (page < n -> page < last_page x).
Proof.
  induction fuel as [| fuel IH]; intros page n vs w x Hacc H;
    cbn [pages_hh] in H; destruct (page <? n) eqn:E.
  - discriminate.
  - injection H as <-. apply Z.ltb_ge in E. cbn. split; [exact Hacc | lia].
  - destruct (request_page_hh language net fuel page n vs w) as [r |] eqn:Er;
      [| discriminate].
    apply request_page_hh_inv in Er as (k & _ & Hall & Hr). cbv zeta in Hr.
    pose proof (accounted_turn net phrase page vs w k Hacc Hall) as Hturn.
    destruct (net (sent w + k)%nat) as [items pages | | | e];
      [| | contradiction |]; subst r; [| | discriminate].
    + apply IH in H as (Ha & Hle & _); [| apply Hturn; discriminate].
      split; [exact Ha | lia].
    + cbn [items_of] in Hturn. rewrite app_nil_r in Hturn.
      apply IH in H as (Ha & Hle & _); [| apply Hturn; discriminate].
      split; [exact Ha | lia].
  - injection H as <-. apply Z.ltb_ge in E. cbn. split; [exact Hacc | lia].
Qed.
End HHAccounting.

Section SJAccounting.
Variable language : string.
Variable net : network bool.

Let phrase : option string := keyword language.

Lemma request_page_sj_inv (fuel : nat) page more vs w r :
  request_page_sj language net fuel page more vs w = Some r ->
  exists k,
    (k < fuel)%nat /\
    (forall i, (i < k)%nat -> net (sent w + i)%nat = ConnectionError) /\
    let w' := after_request (retried phrase page k w)
                (last_attempt phrase page (net (sent w + k)%nat)) in
    match net (sent w + k)%nat with
    | Response objects more' => r = Ok (more', vs ++ objects, w')
    | HTTPError => r = Ok (more, vs, w')
    | ConnectionError => False
    | Fails e => r = Raise e
    end.
Proof.
  revert w. induction fuel as [| fuel IH]; intros w H; [discriminate |].
  cbn [request_page_sj] in H.
  destruct (net (sent w)) as [objects more' | | | e] eqn:E.
  1, 2, 4: exists 0%nat; rewrite Nat.add_0_r, E, retried_zero;
    (split; [lia |]); (split; [intros i Hi; lia |]); cbn;
    injection H as <-; reflexivity.
  apply IH in H as (k & Hk & Hall & Hr).
  exists (S k). split; [lia |]. split.
  - intros [| i] Hi; [rewrite Nat.add_0_r; exact E |].
    replace (sent w + S i)%nat with (S (sent w) + i)%nat by lia.
    apply Hall. lia.
  - cbn [after_request sent] in Hr.
    replace (sent w + S k)%nat with (S (sent w) + k)%nat by lia.
    change (after_request w ([LogInfo page; Get (keyword language) page]
                             ++ [WarnConnectionError page; Sleep 30]))
      with (after_request w (failed_attempt phrase page)) in Hr.
    rewrite retried_succ in Hr. exact Hr.
Qed.

Lemma pages_sj_accounted (fuel : nat) :
  forall page more vs w x,
    accounted net page vs w ->
    pages_sj language net fuel page more vs w = Some (Ok x) ->
    accounted net (last_page x) (vacancies x) (final x) /\
    page <= last_page x /\
    (more = true -> page < last_page x).
Proof.
  induction fuel as [| fuel IH]; intros page more vs w x Hacc H;
    cbn [pages_sj] in H; destruct more.
  - discriminate.
  - injection H as <-. cbn. split; [exact Hacc |]. split; [lia | discriminate].
  - destruct (request_page_sj language net fuel page true vs w) as [r |] eqn:Er;
      [| discriminate].
    apply request_page_sj_inv in Er as (k & _ & Hall & Hr). cbv zeta in Hr.
    pose proof (accounted_turn net phrase page vs w k Hacc Hall) as Hturn.
    destruct (net (sent w + k)%nat) as [objects more' | | | e];
      [| | contradiction |]; subst r; [| | discriminate].
    + apply IH in H as (Ha & Hle & _); [| apply Hturn; discriminate].
      split; [exact Ha | lia].
    + cbn [items_of] in Hturn. rewrite app_nil_r in Hturn.
      apply IH in H as (Ha & Hle & _); [| apply Hturn; discriminate].
      split; [exact Ha | lia].
  - injection H as <-. cbn. split; [exact Hacc |]. split; [lia | discriminate].
Qed.
End SJAccounting.

(** X1: whenever a download returns, its list is the concatenation, in
    request order, of the items of the answered requests: nothing is lost,
    repeated or reordered, and failed requests add nothing. *)
Theorem download_collects :
  (forall (language : string) (net : network Z) (fuel : nat) (x : exit Z),
      run_hh language net fuel = Some (Ok x) ->
      vacancies x = collected net (sent (final x)) /\
      download_vacancies_hh language net fuel
      = Some (Ok (collected net (sent (final x))))) /\
  (forall (language : string) (net : network bool) (fuel : nat) (x : exit bool),
      run_sj language net fuel = Some (Ok x) ->
      vacancies x = collected net (sent (final x)) /\
      download_vacancies_sj language net fuel
      = Some (Ok (collected net (sent (final x))))).
Proof.
  split; intros language net fuel x H.
  - destruct (pages_hh_accounted language net fuel 0 1 [] start x
                (accounted_start net) H) as ((Hvs & _) & _).
    split; [exact Hvs |].
    unfold download_vacancies_hh. rewrite H. cbn. rewrite Hvs. reflexivity.
  - destruct (pages_sj_accounted language net fuel 0 true [] start x
                (accounted_start net) H) as ((Hvs & _) & _).
    split; [exact Hvs |].
    unfold download_vacancies_sj. rewrite H. cbn. rewrite Hvs. reflexivity.
Qed.

Lemma download_collects_witness :
  let hh : network Z :=
    fun n => match n with
             | 0%nat => Response [PStr "a"] 3
             | 1%nat => HTTPError
             | 2%nat => ConnectionError
             | _ => Response [PStr "b"; PStr "c"] 3
             end in
  exists x,
    run_hh "Go" hh 5 = Some (Ok x) /\
    sent (final x) = 4%nat /\
    download_vacancies_hh "Go" hh 5 = Some (Ok [PStr "a"; PStr "b"; PStr "c"]).
Proof.
  intros hh. eexists. split; [vm_compute; reflexivity |].
  split; [reflexivity |].
  exact (proj2 (proj1 download_collects "Go" hh 5%nat _ eq_refl)).
Defined.

(** X2: whenever a download returns, the pages that were requested are
    exactly the indices from 0 up to the page counter, with no gap, and
    page 0 is always among them. *)
Theorem pages_without_gap :
  (forall (language : string) (net : network Z) (fuel : nat) (x : exit Z),
      run_hh language net fuel = Some (Ok x) ->
      1 <= last_page x /\
      forall q, (0 < requests_for q (trace (final x)))%nat
                <-> 0 <= q < last_page x) /\
  (forall (language : string) (net : network bool) (fuel : nat) (x : exit bool),
      run_sj language net fuel = Some (Ok x) ->
      1 <= last_page x /\
      forall q, (0 < requests_for q (trace (final x)))%nat
                <-> 0 <= q < last_page x).
Proof.
  split; intros language net fuel x H.
  - destruct (pages_hh_accounted language net fuel 0 1 [] start x
                (accounted_start net) H) as ((_ & _ & _ & _ & Hreq) & _ & Hlt).
    split; [specialize (Hlt ltac:(lia)); lia | exact Hreq].
  - destruct (pages_sj_accounted language net fuel 0 true [] start x
                (accounted_start net) H) as ((_ & _ & _ & _ & Hreq) & _ & Hlt).
    split; [specialize (Hlt eq_refl); lia | exact Hreq].
Qed.

Lemma pages_without_gap_witness :
  let sj : network bool :=
    fun n => match n with
             | 0%nat => HTTPError
             | 1%nat => ConnectionError
             | _ => Response [] false
             end in
  exists x,
    run_sj "Go" sj 4 = Some (Ok x) /\
    last_page x = 2 /\
    forall q, (0 < requests_for q (trace (final x)))%nat <-> 0 <= q < 2.
Proof.
  intros sj. eexists. split; [vm_compute; reflexivity |].
  split; [reflexivity |].
  exact (proj2 (proj2 pages_without_gap "Go" sj 4%nat _ eq_refl)).
Defined.

(** X3: whenever a download returns, every request either closed a page or
    ended in a connection error, and the time slept is 30 seconds for each
    connection error. *)
Theorem requests_and_sleep :
  (forall (language : string) (net : network Z) (fuel : nat) (x : exit Z),
      run_hh language net fuel = Some (Ok x) ->
      Z.of_nat (sent (final x))
      = last_page x + Z.of_nat (connection_errors net (sent (final x))) /\
      slept (trace (final x))
      = 30 * Z.of_nat (connection_errors net (sent (final x)))) /\
  (forall (language : string) (net : network bool) (fuel : nat) (x : exit bool),
      run_sj language net fuel = Some (Ok x) ->
      Z.of_nat (sent (final x))
      = last_page x + Z.of_nat (connection_errors net (sent (final x))) /\
      slept (trace (final x))
      = 30 * Z.of_nat (connection_errors net (sent (final x)))).
Proof.
  split; intros language net fuel x H.
  - destruct (pages_hh_accounted language net fuel 0 1 [] start x
                (accounted_start net) H) as ((_ & Hs & Hz & _) & _).
    split; [exact Hs | exact Hz].
  - destruct (pages_sj_accounted language net fuel 0 true [] start x
                (accounted_start net) H) as ((_ & Hs & Hz & _) & _).
    split; [exact Hs | exact Hz].
Qed.

Lemma requests_and_sleep_witness :
  let hh : network Z :=
    fun n => match n with
             | 0%nat | 1%nat => ConnectionError
             | 2%nat => Response [] 2
             | 3%nat => ConnectionError
             | _ => HTTPError
             end in
  exists x,
    run_hh "Go" hh 6 = Some (Ok x) /\
    sent (final x) = 5%nat /\ last_page x = 2 /\
    connection_errors hh 5 = 3%nat /\
    slept (trace (final x)) = 30 * Z.of_nat (connection_errors hh 5).
Proof.
  intros hh. eexists. split; [vm_compute; reflexivity |].
  split; [reflexivity |]. split; [reflexivity |]. split; [reflexivity |].
  exact (proj2 (proj1 requests_and_sleep "Go" hh 6%nat _ eq_refl)).
Defined.

Lemma no_connection_errors {B} (net : network B) (n : nat) :
  (forall i, (i < n)%nat -> net i <> ConnectionError) ->
  connection_errors net n = 0%nat.
Proof.
  induction n as [| n IH]; intros Hall; [reflexivity |].
  cbn [connection_errors]. rewrite IH by (intros i Hi; apply Hall; lia).
  pose proof (Hall n ltac:(lia)). destruct (net n); try reflexivity.
  contradiction.
Qed.







(** X6: an exception other than [HTTPError] and [ConnectionError] ends the
    download at once, also after connection errors on the same page: the
    function raises it, and the vacancies collected so far are not
    returned. *)
Theorem other_exception_propagates :
  (forall (language : string) (net : network Z) (k fuel : nat)
          (page number_of_pages : Z) (vs : list value) (w : world) (e : exn),
      page < number_of_pages ->
      (forall i, (i < k)%nat -> net (sent w + i)%nat = ConnectionError) ->
      net (sent w + k)%nat = Fails e ->
      pages_hh language net (S (k + S fuel)) page number_of_pages vs w
      = Some (Raise e)) /\
  (forall (language : string) (net : network bool) (k fuel : nat)
          (page : Z) (vs : list value) (w : world) (e : exn),
      (forall i, (i < k)%nat -> net (sent w + i)%nat = ConnectionError) ->
      net (sent w + k)%nat = Fails e ->
      pages_sj language net (S (k + S fuel)) page true vs w
      = Some (Raise e)).
Proof.
  split.
  - intros language net k fuel page n vs w e Hlt Hall Hk.
    apply pages_hh_raise; [exact Hlt |].
    rewrite request_page_hh_retried by exact Hall.
    cbn [request_page_hh retried sent]. rewrite Hk. reflexivity.
  - intros language net k fuel page vs w e Hall Hk.
    apply pages_sj_raise.
    rewrite request_page_sj_retried by exact Hall.
    cbn [request_page_sj retried sent]. rewrite Hk. reflexivity.
Qed.

Lemma other_exception_propagates_witness :
  let net : network Z :=
    fun n => match n with
             | 0%nat => Response [PStr "a"] 2
             | 1%nat => ConnectionError
             | _ => Fails ValueError
             end in
  download_vacancies_hh "Go" net 4 = Some (Raise ValueError) /\
  pages_hh "Go" net 3 1 2 [PStr "a"]
    (after_request start [LogInfo 0; Get (Some (search_text "Go")) 0])
  = Some (Raise ValueError).
Proof.
  intros net. split; [vm_compute; reflexivity |].
  refine (proj1 other_exception_propagates "Go" net 1%nat 0%nat 1 2 [PStr "a"]
            (after_request start [LogInfo 0; Get (Some (search_text "Go")) 0])
            ValueError ltac:(lia) _ eq_refl).
  intros [| i] Hi; [reflexivity | lia].
Defined.



Lemma declared_retried {B} (net : network B) (default : B) (m k : nat) :
  (forall i, (i < k)%nat -> net (m + i)%nat = ConnectionError) ->
  declared net (m + k) default = declared net m default.
Proof.
  induction k as [| k IH]; intros Hall.
  - rewrite Nat.add_0_r. reflexivity.
  - replace (m + S k)%nat with (S (m + k)) by lia. cbn [declared].
    rewrite (Hall k ltac:(lia)). apply IH. intros i Hi. apply Hall. lia.
Qed.

Lemma pages_hh_declared (language : string) (net : network Z) (fuel : nat) :
  forall page n vs w x,
    n = declared net (sent w) 1 ->
    pages_hh language net fuel page n vs w = Some (Ok x) ->
    last_pagination x = declared net (sent (final x)) 1 /\
    last_pagination x <= last_page x.
Proof.
  induction fuel as [| fuel IH]; intros page n vs w x Hn H;
    cbn [pages_hh] in H; destruct (page <? n) eqn:E.
  - discriminate.
  - injection H as <-. apply Z.ltb_ge in E. cbn. split; [exact Hn | exact E].
  - destruct (request_page_hh language net fuel page n vs w) as [r |] eqn:Er;
      [| discriminate].
    apply request_page_hh_inv in Er as (k & _ & Hall & Hr). cbv zeta in Hr.
    pose proof (declared_retried net 1 (sent w) k Hall) as Hd.
    destruct (net (sent w + k)%nat) as [items pages | | | e] eqn:Eo;
      [| | contradiction |]; subst r; [| | discriminate].
    + apply IH in H; [exact H |]. cbn [after_request retried sent declared].
      rewrite Eo. reflexivity.
    + apply IH in H; [exact H |]. cbn [after_request retried sent declared].
      rewrite Eo, Hd. exact Hn.
  - injection H as <-. apply Z.ltb_ge in E. cbn. split; [exact Hn | exact E].
Qed.

Lemma pages_sj_declared (language : string) (net : network bool) (fuel : nat) :
  forall page more vs w x,
    more = declared net (sent w) true ->
    pages_sj language net fuel page more vs w = Some (Ok x) ->
    last_pagination x = declared net (sent (final x)) true /\
    last_pagination x = false.
Proof.
  induction fuel as [| fuel IH]; intros page more vs w x Hn H;
    cbn [pages_sj] in H; destruct more eqn:E.
  - discriminate.
  - injection H as <-. cbn. split; [exact Hn | reflexivity].
  - destruct (request_page_sj language net fuel page true vs w) as [r |] eqn:Er;
      [| discriminate].
    apply request_page_sj_inv in Er as (k & _ & Hall & Hr). cbv zeta in Hr.
    pose proof (declared_retried net true (sent w) k Hall) as Hd.
    destruct (net (sent w + k)%nat) as [objects more' | | | e] eqn:Eo;
      [| | contradiction |]; subst r; [| | discriminate].
    + apply IH in H; [exact H |]. cbn [after_request retried sent declared].
      rewrite Eo. reflexivity.
    + apply IH in H; [exact H |]. cbn [after_request retried sent declared].
      rewrite Eo, Hd. exact Hn.
  - injection H as <-. cbn. split; [exact Hn | reflexivity].
Qed.

Lemma declared_default {B} (net : network B) (default : B) (n : nat) :
  (forall i items b, (i < n)%nat -> net i = Response items b -> b = default) ->
  declared net n default = default.
Proof.
  induction n as [| n IH]; intros Hall; [reflexivity |].
  cbn [declared]. destruct (net n) as [items b | | |] eqn:E;
    try (apply IH; intros i items' b' Hi; apply Hall; lia).
  exact (Hall n items b ltac:(lia) E).
Qed.

(** X7: the pagination variable is always what the latest answer declared
    (1, or [True], before the first answer): connection errors and HTTP
    errors leave it alone.  So a download of superjob.ru returns only after
    an answer with [more = false]; as long as no answer reports it, no
    amount of fuel lets the download return. *)
Theorem pagination_from_latest_answer :
  (forall (language : string) (net : network Z) (fuel : nat) (x : exit Z),
      run_hh language net fuel = Some (Ok x) ->
      last_pagination x = declared net (sent (final x)) 1 /\
      last_pagination x <= last_page x) /\
  (forall (language : string) (net : network bool) (fuel : nat) (x : exit bool),
      run_sj language net fuel = Some (Ok x) ->
      declared net (sent (final x)) true = false) /\
  (forall (language : string) (net : network bool) (fuel : nat),
      (forall n objects, net n <> Response objects false) ->
      forall x, run_sj language net fuel <> Some (Ok x)).
Proof.
  split; [| split].
  - intros language net fuel x H.
    exact (pages_hh_declared language net fuel 0 1 [] start x eq_refl H).
  - intros language net fuel x H.
    destruct (pages_sj_declared language net fuel 0 true [] start x eq_refl H)
      as [H1 H2].
    congruence.
  - intros language net fuel Hnever x H.
    destruct (pages_sj_declared language net fuel 0 true [] start x eq_refl H)
      as [H1 H2].
    rewrite declared_default in H1; [congruence |].
    intros i objects [|] _ Hi; [reflexivity |].
    exfalso. exact (Hnever i objects Hi).
Qed.

Lemma pagination_from_latest_answer_witness :
  let hh : network Z :=
    fun n => match n with
             | 0%nat => Response [] 2
             | _ => HTTPError
             end in
  exists x,
    run_hh "Go" hh 4 = Some (Ok x) /\
    sent (final x) = 2%nat /\
    last_pagination x = declared hh 2 1 /\
    (forall fuel x, run_sj "Go" (fun _ => HTTPError) fuel <> Some (Ok x)).
Proof.
  intros hh. eexists. split; [vm_compute; reflexivity |].
  split; [reflexivity |]. split.
  - exact (proj1 (proj1 pagination_from_latest_answer "Go" hh 4%nat _ eq_refl)).
  - intros fuel x.
    apply (proj2 (proj2 pagination_from_latest_answer) "Go" (fun _ => HTTPError)).
    intros n objects. discriminate.
Defined.

(** ** When a download ends *)

(** Retries stay on the page. *)
Lemma page_at_retried {B} (net : network B) (m k : nat) :
  (forall i, (i < k)%nat -> net (m + i)%nat = ConnectionError) ->
  page_at net (m + k) = page_at net m.
Proof.
  intros Hall. unfold page_at.
  destruct (collected_retried net m k Hall) as [_ ->]. lia.
Qed.

(** Every request of hh.ru was sent while its page was below the page count
    that the answers had declared by then. *)
Lemma pages_hh_entered (language : string) (net : network Z) (fuel : nat) :
  forall page n vs w x,
    accounted net page vs w ->
    n = declared net (sent w) 1 ->
    (forall i, (i < sent w)%nat -> page_at net i < declared net i 1) ->
    pages_hh language net fuel page n vs w = Some (Ok x) ->
    forall i, (i < sent (final x))%nat -> page_at net i < declared net i 1.
Proof.
  induction fuel as [| fuel IH]; intros page n vs w x Hacc Hn Hin H;
    cbn [pages_hh] in H; destruct (page <? n) eqn:E.
  - discriminate.
  - injection H as <-. exact Hin.
  - destruct (request_page_hh language net fuel page n vs w) as [r |] eqn:Er;
      [| discriminate].
    apply request_page_hh_inv in Er as (k & _ & Hall & Hr). cbv zeta in Hr.
    pose proof (accounted_turn net (Some (search_text language)) page vs w k
                  Hacc Hall) as Hturn.
    pose proof (declared_retried net 1 (sent w) k Hall) as Hd.
    apply Z.ltb_lt in E.
    assert (Hin' : forall i, (i < S (sent w + k))%nat ->
                             page_at net i < declared net i 1).
    { intros i Hi. destruct (Nat.lt_ge_cases i (sent w)) as [Hlt | Hge];
        [exact (Hin i Hlt) |].
      replace i with (sent w + (i - sent w))%nat by lia.
      rewrite page_at_retried, declared_retried
        by (intros i' Hi'; apply Hall; lia).
      destruct Hacc as (_ & Hs & _). unfold page_at. lia. }
    destruct (net (sent w + k)%nat) as [items pages | | | e] eqn:Eo;
      [| | contradiction |]; subst r; [| | discriminate].
    + refine (IH _ _ _ _ x (Hturn ltac:(discriminate)) _ Hin' H).
      cbn [after_request retried sent declared]. rewrite Eo. reflexivity.
    + cbn [items_of] in Hturn. rewrite app_nil_r in Hturn.
      refine (IH _ _ _ _ x (Hturn ltac:(discriminate)) _ Hin' H).
      cbn [after_request retried sent declared]. rewrite Eo, Hd. exact Hn.
  - injection H as <-. exact Hin.
Qed.

(** Every request of superjob.ru was sent while no answer had reported
    [more = false]. *)
Lemma pages_sj_entered (language : string) (net : network bool) (fuel : nat) :
  forall page more vs w x,
    more = declared net (sent w) true ->
    (forall i, (i < sent w)%nat -> declared net i true = true) ->
    pages_sj language net fuel page more vs w = Some (Ok x) ->
    forall i, (i < sent (final x))%nat -> declared net i true = true.
Proof.
  induction fuel as [| fuel IH]; intros page more vs w x Hn Hin H;
    cbn [pages_sj] in H; destruct more eqn:E.
  - discriminate.
  - injection H as <-. exact Hin.
  - destruct (request_page_sj language net fuel page true vs w) as [r |] eqn:Er;
      [| discriminate].
    apply request_page_sj_inv in Er as (k & _ & Hall & Hr). cbv zeta in Hr.
    pose proof (declared_retried net true (sent w) k Hall) as Hd.
    assert (Hin' : forall i, (i < S (sent w + k))%nat ->
                             declared net i true = true).
    { intros i Hi. destruct (Nat.lt_ge_cases i (sent w)) as [Hlt | Hge];
        [exact (Hin i Hlt) |].
      replace i with (sent w + (i - sent w))%nat by lia.
      rewrite declared_retried by (intros i' Hi'; apply Hall; lia).
      symmetry. exact Hn. }
    destruct (net (sent w + k)%nat) as [objects more' | | | e] eqn:Eo;
      [| | contradiction |]; subst r; [| | discriminate].
    + refine (IH _ _ _ _ x _ _ H); [| exact Hin'].
      cbn [after_request retried sent declared]. rewrite Eo. reflexivity.
    + refine (IH _ _ _ _ x _ _ H); [| exact Hin'].
      cbn [after_request retried sent declared]. rewrite Eo, Hd. exact Hn.
  - injection H as <-. exact Hin.
Qed.

(** The first answer with [more = false], read off [declared]. *)
Lemma first_false_answer (net : network bool) (n : nat) :
  (forall i, (i < n)%nat -> declared net i true = true) ->
  declared net n true = false ->
  exists m objects,
    n = S m /\ net m = Response objects false /\
    forall i o, (i < m)%nat -> net i <> Response o false.
Proof.
  intros Hin Hn. destruct n as [| m]; [discriminate |].
  cbn [declared] in Hn. pose proof (Hin m ltac:(lia)) as Hm.
  destruct (net m) as [objects b | | |] eqn:E; try congruence.
  subst b. exists m, objects. split; [reflexivity |]. split; [exact E |].
  intros i o Hi Hio. pose proof (Hin (S i) ltac:(lia)) as Hsi.
  cbn [declared] in Hsi. rewrite Hio in Hsi. discriminate.
Qed.

(** C8, amended: the download ends under these conditions, and where it
    ends is fixed by the answers.  For hh.ru: when no request is followed by
    connection errors for ever and the page counts that the answers declare
    are bounded, the loop is left after [n] requests, [n >= 1], where [n] is
    the first number of requests at which the page index has reached the
    page count declared by the latest answer (1 before the first answer):
    every request before was sent for a page below the count declared by
    then.  For superjob.ru: when some request is answered with
    [more = false], the loop is left right after the first such answer.
    Nothing is asked of the items, so empty pages are included; the list
    returned holds the items of all the answers received.  The only other
    way out is an exception that a request lets through. *)
Theorem download_terminates :
  (forall (language : string) (net : network Z) (bound : Z),
      (forall k, exists j, (k <= j)%nat /\ net j <> ConnectionError) ->
      (forall k items pages, net k = Response items pages -> pages <= bound) ->
      exists fuel r,
        run_hh language net fuel = Some r /\
        download_vacancies_hh language net fuel
        = Some (x <- r ;; Ok (vacancies x)) /\
        match r with
        | Ok x =>
            let n := sent (final x) in
            (forall i, (i < n)%nat -> page_at net i < declared net i 1) /\
            declared net n 1 <= page_at net n /\
            last_page x = page_at net n /\
            last_pagination x = declared net n 1 /\
            vacancies x = collected net n /\
            1 <= last_page x
        | Raise e => exists k, net k = Fails e
        end) /\
  (forall (language : string) (net : network bool) (j : nat) (objects : list value),
      net j = Response objects false ->
      exists fuel r,
        run_sj language net fuel = Some r /\
        download_vacancies_sj language net fuel
        = Some (x <- r ;; Ok (vacancies x)) /\
        match r with
        | Ok x =>
            exists m objects',
              sent (final x) = S m /\ (m <= j)%nat /\
              net m = Response objects' false /\
              (forall i o, (i < m)%nat -> net i <> Response o false) /\
              last_page x = page_at net (S m) /\
              last_pagination x = false /\
              vacancies x = collected net (S m)
        | Raise e => exists k, net k = Fails e
        end).
Proof.
  split.
  - intros language net bound Hev Hbound.
    destruct (pages_hh_terminates language net (Z.max bound 1) Hev)
      with (d := Z.to_nat (Z.max bound 1)) (page := 0) (n := 1)
           (vs := @nil value) (w := start)
      as (fuel & r & Hrun & Hend); try lia.
    { intros k items pages H. pose proof (Hbound k items pages H). lia. }
    exists fuel, r. unfold download_vacancies_hh, run_hh. rewrite Hrun.
    split; [reflexivity | split; [reflexivity |]].
    destruct r as [x | e]; [| exact Hend].
    destruct (pages_hh_accounted language net fuel 0 1 [] start x
                (accounted_start net) Hrun) as ((Hvs & Hs & _) & _ & Hpos).
    destruct (pages_hh_declared language net fuel 0 1 [] start x eq_refl Hrun)
      as [Hd Hle].
    pose proof (pages_hh_entered language net fuel 0 1 [] start x
                  (accounted_start net) eq_refl
                  ltac:(cbn [sent start]; intros i Hi; lia) Hrun) as Hin.
    cbv zeta.
    assert (Hp : last_page x = page_at net (sent (final x)))
      by (unfold page_at; lia).
    split; [exact Hin |]. split; [rewrite <- Hd, <- Hp; exact Hle |].
    split; [exact Hp |]. split; [exact Hd |]. split; [exact Hvs | lia].
  - intros language net j objects Hj.
    destruct (pages_sj_terminates language net j objects Hj (S j) 0 [] start)
      as (fuel & r & Hrun & Hend); [cbn [sent start]; lia |].
    exists fuel, r. unfold download_vacancies_sj, run_sj. rewrite Hrun.
    split; [reflexivity | split; [reflexivity |]].
    destruct r as [x | e]; [| exact Hend].
    destruct Hend as [Hfalse Hsent].
    destruct (pages_sj_accounted language net fuel 0 true [] start x
                (accounted_start net) Hrun) as ((Hvs & Hs & _) & _).
    destruct (pages_sj_declared language net fuel 0 true [] start x eq_refl Hrun)
      as [Hd _].
    pose proof (pages_sj_entered language net fuel 0 true [] start x eq_refl
                  ltac:(cbn [sent start]; intros i Hi; lia) Hrun) as Hin.
    destruct (first_false_answer net (sent (final x)) Hin ltac:(congruence))
      as (m & objects' & Hm & Hnm & Hfirst).
    exists m, objects'. rewrite <- Hm.
    split; [reflexivity |]. split; [lia |]. split; [exact Hnm |].
    split; [exact Hfirst |]. split; [unfold page_at; lia |].
    split; [exact Hfalse | exact Hvs].
Qed.

Lemma download_terminates_witness :
  let hh : network Z := fun _ => Response [] 3 in
  let sj : network bool := fun n => Response [] (Nat.ltb n 2) in
  (forall k, exists j, (k <= j)%nat /\ hh j <> ConnectionError) /\
  (forall k items pages, hh k = Response items pages -> pages <= 3) /\
  sj 2%nat = Response [] false /\
  (exists fuel x,
      run_hh "Go" hh fuel = Some (Ok x) /\ sent (final x) = 3%nat /\
      last_page x = 3) /\
  (exists fuel x,
      run_sj "Go" sj fuel = Some (Ok x) /\ sent (final x) = 3%nat /\
      last_page x = 3).
Proof.
  intros hh sj.
  assert (Hev : forall k, exists j, (k <= j)%nat /\ hh j <> ConnectionError).
  { intros k. exists k. split; [lia | discriminate]. }
  assert (Hb : forall k items pages, hh k = Response items pages -> pages <= 3).
  { intros k items pages H. injection H as _ <-. lia. }
  split; [exact Hev |]. split; [exact Hb |]. split; [reflexivity |]. split.
  - destruct (proj1 download_terminates "Go" hh 3 Hev Hb)
      as (fuel & [x | e] & H & _ & Hx).
    + cbv zeta in Hx. destruct Hx as (Hin & Hle & Hp & _).
      exists fuel, x. split; [exact H |].
      assert (Hpa : forall n, page_at hh n = Z.of_nat n).
      { intros n. unfold page_at.
        rewrite (no_connection_errors hh n); [lia |].
        intros i _. discriminate. }
      assert (Hde : forall n, (0 < n)%nat -> declared hh n 1 = 3).
      { intros [| n] Hn; [lia | reflexivity]. }
      rewrite Hpa in Hle, Hp.
      assert (Hs : sent (final x) = 3%nat).
      { destruct (sent (final x)) as [| [| [| [| n]]]] eqn:Es.
        - cbn in Hle. lia.
        - cbn in Hle. lia.
        - cbn in Hle. lia.
        - reflexivity.
        - specialize (Hin 3%nat ltac:(lia)). rewrite Hpa in Hin.
          cbn in Hin. lia. }
      split; [exact Hs | rewrite Hp, Hs; reflexivity].
    + exfalso. destruct Hx as [k Hk]. discriminate.
  - destruct (proj2 download_terminates "Go" sj 2%nat [] eq_refl)
      as (fuel & [x | e] & H & _ & Hx).
    + destruct Hx as (m & o & Hm & Hle & Hnm & Hfirst & Hp & _).
      exists fuel, x. split; [exact H |].
      assert (m = 2%nat) as ->.
      { destruct m as [| [| [| m]]]; try discriminate; [reflexivity | lia]. }
      split; [exact Hm | rewrite Hp; reflexivity].
    + exfalso. destruct Hx as [k Hk]. discriminate.
Defined.

(** C8 as worded fails: every request of these two scripts is answered, with
    an empty page, yet neither download returns, whatever the fuel.  The
    page count that hh.ru declares grows with every answer, and superjob.ru
    never reports [more = false]. *)
Lemma unbounded_pagination_never_ends :
  let hh : network Z := fun n => Response [] (Z.of_nat n + 2) in
  let sj : network bool := fun _ => Response [] true in
  (forall k, exists j, (k <= j)%nat /\ hh j <> ConnectionError) /\
  (forall k, exists j, (k <= j)%nat /\ sj j <> ConnectionError) /\
  (forall fuel, download_vacancies_hh "Go" hh fuel = None) /\
  (forall fuel, download_vacancies_sj "Go" sj fuel = None).
Proof.
  intros hh sj.
  split; [intros k; exists k; split; [lia | discriminate] |].
  split; [intros k; exists k; split; [lia | discriminate] |].
  split; intros fuel.
  - unfold download_vacancies_hh, hh.
    rewrite (growing_page_count_never_ends "Go" fuel). reflexivity.
  - unfold download_vacancies_sj, sj.
    rewrite (proj1 (always_more_never_ends "Go" fuel)). reflexivity.
Qed.

(** ** More on the estimators *)

(** X8: with both bounds present (integers other than 0, of any size) the
    estimate is their midpoint rounded down, computed on integers, and it
    lies between the two bounds, whichever is the larger. *)
Theorem midpoint_between_bounds (lower upper : Z) :
  lower <> 0 -> upper <> 0 ->
  predict_salary (PInt lower) (PInt upper) = Ok (PInt ((lower + upper) / 2)) /\
  Z.min lower upper <= (lower + upper) / 2 <= Z.max lower upper.
Proof.
  intros Hl Hu. split.
  - unfold predict_salary. rewrite (truthy_int lower Hl), (truthy_int upper Hu).
    reflexivity.
  - split.
    + apply Z.div_le_lower_bound; lia.
    + apply Z.div_le_upper_bound; lia.
Qed.

Lemma midpoint_between_bounds_witness :
  predict_salary (PInt (2 ^ 70)) (PInt 1) = Ok (PInt 590295810358705651712) /\
  1 <= 590295810358705651712 <= 2 ^ 70.
Proof.
  destruct (midpoint_between_bounds (2 ^ 70) 1 ltac:(discriminate) ltac:(discriminate))
    as [H1 H2].
  split; [exact H1 | exact H2].
Defined.

(** X9: an estimate from one bound alone stays on the right side of that
    bound: from a lower bound it is at least the bound and at most a fifth
    above it; from an upper bound it is at most the bound and less than a
    fifth (and one) below it.  The other bound may be any false value. *)
Theorem one_sided_estimate (bound : Z) (other : value) :
  0 < bound < 2 ^ 50 ->
  truthy other = false ->
  (exists e, predict_salary (PInt bound) other = Ok (PInt e) /\
             bound <= e /\ 5 * e <= 6 * bound < 5 * e + 5) /\
  (exists e, predict_salary other (PInt bound) = Ok (PInt e) /\
             0 <= e <= bound /\ 5 * e <= 4 * bound < 5 * e + 5).
Proof.
  intros Hb Hother. unfold predict_salary.
  rewrite (truthy_int bound ltac:(lia)), Hother. cbn [counters]. split.
  - rewrite scale_1_2 by lia. eexists. split; [reflexivity |].
    rewrite Z.quot_div_nonneg by lia.
    pose proof (Z.div_mod (6 * bound) 5 ltac:(lia)).
    pose proof (Z.mod_pos_bound (6 * bound) 5 ltac:(lia)). lia.
  - rewrite scale_0_8 by lia. eexists. split; [reflexivity |].
    rewrite Z.quot_div_nonneg by lia.
    pose proof (Z.div_mod (4 * bound) 5 ltac:(lia)).
    pose proof (Z.mod_pos_bound (4 * bound) 5 ltac:(lia)). lia.
Qed.

Lemma one_sided_estimate_witness :
  0 < 70000 < 2 ^ 50 /\
  predict_salary (PInt 70000) (PInt 0) = Ok (PInt 84000) /\
  predict_salary (PStr "") (PInt 70000) = Ok (PInt 56000).
Proof.
  assert (H : 0 < 70000 < 2 ^ 50) by (split; reflexivity).
  split; [exact H |]. split.
  - destruct (proj1 (one_sided_estimate 70000 (PInt 0) H eq_refl))
      as (e & He & _ & H5 & H6).
    rewrite He. f_equal. f_equal. lia.
  - destruct (proj2 (one_sided_estimate 70000 (PStr "") H eq_refl))
      as (e & He & _ & H5 & H6).
    rewrite He. f_equal. f_equal. lia.
Defined.

(** X10: a bound that is true but not a number (a non-empty string, list or
    dict) makes [predict_salary] raise [TypeError], whatever the other bound
    is. *)
Theorem non_numeric_bound_raises (salary_from salary_to : value) :
  (truthy salary_from = true /\ as_int salary_from = None) \/
  (truthy salary_to = true /\ as_int salary_to = None) ->
  predict_salary salary_from salary_to = Raise TypeError.
Proof.
  unfold predict_salary.
  intros [[Ht Hn] | [Ht Hn]]; rewrite Ht.
  - destruct (truthy salary_to); cbn [counters].
    + unfold add. rewrite Hn.
      destruct (as_int salary_to);
        destruct salary_from, salary_to; try discriminate; reflexivity.
    + unfold mul_float. rewrite Hn. reflexivity.
  - destruct (truthy salary_from) eqn:Hf; cbn [counters].
    + unfold add. rewrite Hn.
      destruct (as_int salary_from);
        destruct salary_from, salary_to; try discriminate; reflexivity.
    + unfold mul_float. rewrite Hn. reflexivity.
Qed.

Lemma non_numeric_bound_raises_witness :
  predict_salary (PStr "100") (PInt 200) = Raise TypeError /\
  predict_salary PNone (PList [PInt 1]) = Raise TypeError.
Proof.
  split.
  - exact (non_numeric_bound_raises (PStr "100") (PInt 200)
             (or_introl (conj eq_refl eq_refl))).
  - exact (non_numeric_bound_raises PNone (PList [PInt 1])
             (or_intror (conj eq_refl eq_refl))).
Defined.

(** X11: a record that is not empty but lacks a key the wrapper reads makes
    it raise [KeyError]: [salary] for hh.ru or, once the salary is there,
    its [currency]; [currency] for superjob.ru; and for a ruble record of
    either site, a missing bound. *)
Theorem missing_key_raises :
  (forall d : gmap string value,
      truthy (PDict d) = true -> d !! "salary" = None ->
      predict_rub_salary_hh (PDict d) = Raise KeyError) /\
  (forall d salary : gmap string value,
      d !! "salary" = Some (PDict salary) ->
      truthy (PDict salary) = true ->
      salary !! "currency" = None \/
      (salary !! "currency" = Some (PStr "RUR") /\
       (salary !! "from" = None \/ salary !! "to" = None)) ->
      predict_rub_salary_hh (PDict d) = Raise KeyError) /\
  (forall d : gmap string value,
      truthy (PDict d) = true ->
      d !! "currency" = None \/
      (d !! "currency" = Some (PStr "rub") /\
       (d !! "payment_from" = None \/ d !! "payment_to" = None)) ->
      predict_rub_salary_sj (PDict d) = Raise KeyError).
Proof.
  split; [| split].
  - intros d Ht Hs. unfold predict_rub_salary_hh. rewrite Ht.
    cbn [negb getitem]. rewrite Hs. reflexivity.
  - intros d salary Hs Ht Hk. unfold predict_rub_salary_hh.
    rewrite (truthy_dict_lookup d _ _ Hs). cbn [negb getitem]. rewrite Hs.
    cbn [bind]. rewrite Ht. cbn [negb getitem].
    destruct Hk as [-> | [-> Hb]]; [reflexivity |]. cbn [bind ne_str].
    rewrite String.eqb_refl. cbn [negb].
    destruct Hb as [-> | Hto]; [reflexivity |].
    rewrite Hto. destruct (salary !! "from"); reflexivity.
  - intros d Ht Hk. unfold predict_rub_salary_sj. rewrite Ht.
    cbn [negb getitem].
    destruct Hk as [-> | [-> Hb]]; [reflexivity |]. cbn [bind ne_str].
    rewrite String.eqb_refl. cbn [negb].
    destruct Hb as [-> | Hto]; [reflexivity |].
    rewrite Hto. destruct (d !! "payment_from"); reflexivity.
Qed.

Lemma missing_key_raises_witness :
  predict_rub_salary_hh (PDict {[ "id" := PInt 7 ]}) = Raise KeyError /\
  predict_rub_salary_sj
    (PDict {[ "currency" := PStr "rub"; "payment_from" := PInt 5 ]})
  = Raise KeyError.
Proof.
  split.
  - apply (proj1 missing_key_raises); vm_compute; reflexivity.
  - apply (proj2 (proj2 missing_key_raises)); [vm_compute; reflexivity |].
    right. split; [vm_compute; reflexivity |]. right. vm_compute. reflexivity.
Defined.

(** X12: a ruble record is handed to [predict_salary] with its two bounds
    ([from] and [to] of the salary for hh.ru, [payment_from] and
    [payment_to] for superjob.ru), and the result is passed back as it is:
    no other field of the record matters. *)
Theorem ruble_record_estimate :
  (forall (d salary : gmap string value) (a b : value),
      d !! "salary" = Some (PDict salary) ->
      salary !! "currency" = Some (PStr "RUR") ->
      salary !! "from" = Some a ->
      salary !! "to" = Some b ->
      predict_rub_salary_hh (PDict d) = predict_salary a b) /\
  (forall (d : gmap string value) (a b : value),
      d !! "currency" = Some (PStr "rub") ->
      d !! "payment_from" = Some a ->
      d !! "payment_to" = Some b ->
      predict_rub_salary_sj (PDict d) = predict_salary a b).
Proof.
  split.
  - intros d salary a b Hs Hc Ha Hb. unfold predict_rub_salary_hh.
    rewrite (truthy_dict_lookup d _ _ Hs). cbn [negb getitem]. rewrite Hs.
    cbn [bind]. rewrite (truthy_dict_lookup salary _ _ Hc).
    cbn [negb getitem]. rewrite Hc, Ha, Hb. cbn [bind ne_str].
    rewrite String.eqb_refl. reflexivity.
  - intros d a b Hc Ha Hb. unfold predict_rub_salary_sj.
    rewrite (truthy_dict_lookup d _ _ Hc). cbn [negb getitem].
    rewrite Hc, Ha, Hb. cbn [bind ne_str].
    rewrite String.eqb_refl. reflexivity.
Qed.

Lemma ruble_record_estimate_witness :
  predict_rub_salary_sj
    (PDict {[ "currency" := PStr "rub"; "payment_from" := PInt 0;
              "payment_to" := PInt 200; "town" := PStr "Moscow" ]})
  = Ok (PInt 160).
Proof.
  rewrite (proj2 ruble_record_estimate _ (PInt 0) (PInt 200));
    vm_compute; reflexivity.
Defined.

(** ** More on the aggregation *)

Lemma total_bounds (l : list Z) (lo hi : Z) :
  Forall (fun z => lo <= z <= hi) l ->
  lo * len l <= total l <= hi * len l.
Proof.
  unfold len. induction 1 as [| z l Hz _ IH]; [cbn; lia |].
  cbn [total fold_right length]. unfold total in IH. lia.
Qed.

(** X13: the average of a row lies between the smallest and the largest of
    the estimates that count. *)
Theorem average_between_estimates (language : value) (vacancies : list value)
    (estimates : list (option Z)) (lo hi : Z) :
  known_nonzero estimates <> [] ->
  Forall (fun z => lo <= z <= hi) (known_nonzero estimates) ->
  exists found processed average : Z,
    get_statistics language vacancies (map of_option estimates)
    = Ok (PList [language; PInt found; PInt processed; PInt average]) /\
    lo <= average <= hi.
Proof.
  intros Hne Hall. rewrite get_statistics_eq.
  pose proof (total_bounds _ lo hi Hall) as Hb.
  destruct (known_nonzero estimates) as [| z l]; [contradiction |].
  eexists _, _, _. split; [reflexivity |].
  assert (0 < len (z :: l)) by (unfold len; cbn [length]; lia).
  split.
  - apply Z.div_le_lower_bound; lia.
  - apply Z.div_le_upper_bound; lia.
Qed.

Lemma average_between_estimates_witness :
  exists found processed average : Z,
    get_statistics (PStr "Go") [PNone; PNone; PNone]
      (map of_option [Some 90; None; Some 101])
    = Ok (PList [PStr "Go"; PInt found; PInt processed; PInt average]) /\
    90 <= average <= 101.
Proof.
  apply (average_between_estimates (PStr "Go") [PNone; PNone; PNone]
           [Some 90; None; Some 101] 90 101); [discriminate |].
  repeat constructor; lia.
Defined.

Lemma known_nonzero_perm (es es' : list (option Z)) :
  es ≡ₚ es' ->
  total (known_nonzero es) = total (known_nonzero es') /\
  length (known_nonzero es) = length (known_nonzero es').
Proof.
  intros Hp. assert (H : known_nonzero es ≡ₚ known_nonzero es').
  { unfold known_nonzero. rewrite Hp. reflexivity. }
  split; [| rewrite H; reflexivity].
  clear Hp. induction H as [| z l l' _ IH | a b l | l1 l2 l3 _ IH1 _ IH2];
    unfold total in *; cbn [fold_right]; lia.
Qed.

(** X14: the row does not depend on the order of the estimates, nor on which
    vacancies are in the list, only on how many there are. *)
Theorem statistics_order_free (language : value)
    (vacancies vacancies' : list value) (estimates estimates' : list (option Z)) :
  length vacancies = length vacancies' ->
  estimates ≡ₚ estimates' ->
  get_statistics language vacancies (map of_option estimates)
  = get_statistics language vacancies' (map of_option estimates').
Proof.
  intros Hlen Hp. rewrite !get_statistics_eq.
  destruct (known_nonzero_perm _ _ Hp) as [Ht Hl].
  unfold len in *. rewrite Hlen.
  destruct (known_nonzero estimates) as [| z l],
    (known_nonzero estimates') as [| z' l']; try discriminate;
    [reflexivity |].
  rewrite Ht, Hl. reflexivity.
Qed.

Lemma statistics_order_free_witness :
  get_statistics (PStr "Go") [PStr "a"; PStr "b"]
    (map of_option [Some 100; Some 301])
  = get_statistics (PStr "Go") [PStr "b"; PStr "a"]
      (map of_option [Some 301; Some 100]).
Proof.
  apply statistics_order_free; [reflexivity | apply perm_swap].
Defined.



(** ** The report *)

Lemma comprehension_length {A B} (f : A -> result B) (l : list A) (ys : list B) :
  comprehension f l = Ok ys -> length ys = length l.
Proof.
  revert ys. induction l as [| x l IH]; intros ys H; cbn [comprehension] in H.
  - injection H as <-. reflexivity.
  - destruct (f x) as [y | e]; [| discriminate]. cbn [bind] in H.
    destruct (comprehension f l) as [ys' | e]; [| discriminate].
    injection H as <-. cbn [length]. rewrite (IH ys' eq_refl). reflexivity.
Qed.

(** A row that [get_statistics] returns, for any estimates. *)
Lemma get_statistics_row (language : value) (vacancies ps : list value)
    (row : value) :
  get_statistics language vacancies ps = Ok row ->
  exists processed average : Z,
    row = PList [language; PInt (len vacancies); PInt processed; PInt average] /\
    0 < processed <= len ps.
Proof.
  unfold get_statistics.
  destruct (sum (filter (fun x => truthy x = true) ps)) as [t | e];
    [| discriminate].
  cbn [bind]. unfold floordiv. destruct (as_int t) as [a |]; [| discriminate].
  destruct (len (filter (fun x => truthy x = true) ps) =? 0) eqn:E;
    [discriminate |].
  cbn [bind]. intros H. injection H as <-. eexists _, _. split; [reflexivity |].
  apply Z.eqb_neq in E. unfold len in *.
  pose proof (length_filter (fun x => truthy x = true) ps). lia.
Qed.

Lemma row_hh_row_for (language : string) (net : network Z) (fuel : nat)
    (r : value) :
  row_hh language net fuel = Some (Ok r) -> row_for language r.
Proof.
  unfold row_hh. destruct (download_vacancies_hh language net fuel)
    as [[vs | e] |]; try discriminate. cbn [option_map bind].
  destruct (comprehension predict_rub_salary_hh vs) as [ps | e] eqn:E;
    [| discriminate].
  cbn [bind]. intros H. injection H as H.
  apply get_statistics_row in H as (processed & average & -> & Hp).
  exists (len vs), processed, average. split; [reflexivity |].
  unfold len in *. rewrite (comprehension_length _ _ _ E) in Hp. exact Hp.
Qed.

Lemma row_sj_row_for (language : string) (net : network bool) (fuel : nat)
    (r : value) :
  row_sj language net fuel = Some (Ok r) -> row_for language r.
Proof.
  unfold row_sj. destruct (download_vacancies_sj language net fuel)
    as [[vs | e] |]; try discriminate. cbn [option_map bind].
  destruct (comprehension predict_rub_salary_sj vs) as [ps | e] eqn:E;
    [| discriminate].
  cbn [bind]. intros H. injection H as H.
  apply get_statistics_row in H as (processed & average & -> & Hp).
  exists (len vs), processed, average. split; [reflexivity |].
  unfold len in *. rewrite (comprehension_length _ _ _ E) in Hp. exact Hp.
Qed.

(** A loop that ends well has appended one row per language, in order. *)
Lemma rows_of_ok (row : string -> option (result value)) (ls : list string) :
  forall statistics table,
    rows_of row ls statistics = Some (Ok table) ->
    exists rows,
      table = statistics ++ rows /\
      Forall2 (fun l r => row l = Some (Ok r)) ls rows.
Proof.
  induction ls as [| l ls IH]; intros statistics table H; cbn [rows_of] in H.
  - injection H as <-. exists []. rewrite app_nil_r. split; constructor.
  - destruct (row l) as [[r | e] |] eqn:E; try discriminate.
    apply IH in H as (rows & -> & Hall).
    exists (r :: rows). rewrite <- app_assoc. split; [reflexivity |].
    constructor; assumption.
Qed.

(** A loop in which some language raises, and none runs out of fuel,
    raises. *)
Lemma rows_of_raise (row : string -> option (result value)) (ls : list string) :
  forall statistics,
    Forall (fun l => row l <> None) ls ->
    Exists (fun l => exists e, row l = Some (Raise e)) ls ->
    exists e, rows_of row ls statistics = Some (Raise e).
Proof.
  induction ls as [| l ls IH]; intros statistics Hall Hex;
    [inversion Hex |].
  cbn [rows_of]. inversion Hall as [| ? ? Hl Hls]; subst.
  destruct (row l) as [[r | e] |] eqn:E; [| eexists; reflexivity | contradiction].
  inversion Hex as [? ? [e He] | ? ? Hex']; subst; [congruence |].
  apply IH; assumption.
Qed.

(** Without [SJ_SECRET_KEY] in the environment, [main] raises
    [KeyError] at once: nothing is printed, whatever the sites would
    answer. *)
Theorem main_without_key (environ : gmap string string)
    (hh : string -> network Z) (sj : string -> string -> network bool)
    (fuel : nat) :
  environ !! "SJ_SECRET_KEY" = None ->
  main environ hh sj fuel = ([], Some (Raise KeyError)).
Proof. intros H. unfold main. rewrite H. reflexivity. Qed.

Lemma main_without_key_witness :
  main {[ "HOME" := "/root" ]} (fun _ _ => Response [] 1)
    (fun _ _ _ => Response [] false) 3
  = ([], Some (Raise KeyError)).
Proof. apply main_without_key. vm_compute. reflexivity. Defined.

(** X15: when [main] ends well it has printed exactly two tables, hh.ru
    first, each followed by an empty line; each table is the header row and
    then one row per language, in the order of the language list, and every
    row holds its language, the number found, the number processed and the
    average, with [0 < processed <= found]. *)
Theorem main_prints_two_tables (environ : gmap string string)
    (hh : string -> network Z) (sj : string -> string -> network bool)
    (fuel : nat) (out : list output) :
  main environ hh sj fuel = (out, Some (Ok tt)) ->
  exists rows_hh rows_sj,
    out = [Table "HeadHunter Moscow" (table_cap :: rows_hh); Blank;
           Table "SuperJob Moscow" (table_cap :: rows_sj); Blank] /\
    Forall2 row_for languages rows_hh /\
    Forall2 row_for languages rows_sj.
Proof.
  unfold main. destruct (environ !! "SJ_SECRET_KEY") as [key |];
    [| discriminate].
  destruct (rows_of (fun l => row_hh l (hh l) fuel) languages [table_cap])
    as [[t_hh | e] |] eqn:Ehh; try discriminate.
  destruct (rows_of (fun l => row_sj l (sj key l) fuel) languages [table_cap])
    as [[t_sj | e] |] eqn:Esj; try discriminate.
  intros H. injection H as <-.
  apply rows_of_ok in Ehh as (rows_hh & -> & Hhh).
  apply rows_of_ok in Esj as (rows_sj & -> & Hsj).
  exists rows_hh, rows_sj. split; [reflexivity |]. split.
  - eapply Forall2_impl; [exact Hhh |]. intros l r. apply row_hh_row_for.
  - eapply Forall2_impl; [exact Hsj |]. intros l r. apply row_sj_row_for.
Qed.

Lemma main_prints_two_tables_witness :
  let vacancy :=
    PDict {[ "salary" := PDict {[ "currency" := PStr "RUR";
                                  "from" := PInt 100; "to" := PInt 200 ]};
             "currency" := PStr "rub"; "payment_from" := PInt 0;
             "payment_to" := PInt 200 ]} in
  exists out rows_hh rows_sj,
    main {[ "SJ_SECRET_KEY" := "secret" ]}
      (fun _ _ => Response [vacancy] 1)
      (fun _ _ _ => Response [vacancy] false) 3
    = (out, Some (Ok tt)) /\
    out = [Table "HeadHunter Moscow" (table_cap :: rows_hh); Blank;
           Table "SuperJob Moscow" (table_cap :: rows_sj); Blank] /\
    length rows_hh = 8%nat /\ length rows_sj = 8%nat.
Proof.
  intros vacancy. eexists.
  assert (H : main {[ "SJ_SECRET_KEY" := "secret" ]}
                (fun _ _ => Response [vacancy] 1)
                (fun _ _ _ => Response [vacancy] false) 3
              = (_, Some (Ok tt))) by (vm_compute; reflexivity).
  destruct (main_prints_two_tables _ _ _ _ _ H) as (rows_hh & rows_sj & Hout & Hh & Hs).
  exists rows_hh, rows_sj. split; [exact H |]. split; [exact Hout |].
  split.
  - rewrite <- (Forall2_length _ _ _ Hh). reflexivity.
  - rewrite <- (Forall2_length _ _ _ Hs). reflexivity.
Defined.

(** X16: one language whose row raises (for instance by the division by zero
    when none of its vacancies has an estimate) loses the whole table: if
    it happens for hh.ru, [main] raises and has printed nothing; if it
    happens for superjob.ru, only the hh.ru table has been printed. *)
Theorem failing_language_loses_table (environ : gmap string string)
    (hh : string -> network Z) (sj : string -> string -> network bool)
    (fuel : nat) (key : string) :
  environ !! "SJ_SECRET_KEY" = Some key ->
  (Forall (fun l => row_hh l (hh l) fuel <> None) languages ->
   Exists (fun l => exists e, row_hh l (hh l) fuel = Some (Raise e)) languages ->
   exists e, main environ hh sj fuel = ([], Some (Raise e))) /\
  (forall statistics_hh,
      rows_of (fun l => row_hh l (hh l) fuel) languages [table_cap]
      = Some (Ok statistics_hh) ->
      Forall (fun l => row_sj l (sj key l) fuel <> None) languages ->
      Exists (fun l => exists e, row_sj l (sj key l) fuel = Some (Raise e))
        languages ->
      exists e, main environ hh sj fuel
                = ([Table "HeadHunter Moscow" statistics_hh; Blank],
                   Some (Raise e))).
Proof.
  intros Hkey. unfold main. rewrite Hkey. split.
  - intros Hall Hex.
    destruct (rows_of_raise (fun l => row_hh l (hh l) fuel) languages
                [table_cap] Hall Hex) as [e ->].
    exists e. reflexivity.
  - intros statistics_hh -> Hall Hex.
    destruct (rows_of_raise (fun l => row_sj l (sj key l) fuel) languages
                [table_cap] Hall Hex) as [e ->].
    exists e. reflexivity.
Qed.

Lemma failing_language_loses_table_witness :
  let vacancy :=
    PDict {[ "salary" := PDict {[ "currency" := PStr "RUR";
                                  "from" := PInt 100; "to" := PInt 200 ]} ]} in
  let hh : string -> network Z :=
    fun language _ =>
      if String.eqb language "Ruby" then HTTPError else Response [vacancy] 1 in
  main {[ "SJ_SECRET_KEY" := "secret" ]} hh (fun _ _ _ => Response [] false) 3
  = ([], Some (Raise ZeroDivisionError)).
Proof.
  intros vacancy hh.
  assert (Hkey : ({[ "SJ_SECRET_KEY" := "secret" ]} : gmap string string)
                 !! "SJ_SECRET_KEY" = Some "secret")
    by (vm_compute; reflexivity).
  destruct (proj1 (failing_language_loses_table
                     {[ "SJ_SECRET_KEY" := "secret" ]} hh
                     (fun _ _ _ => Response [] false) 3 "secret" Hkey))
    as [e He].
  - repeat constructor; vm_compute; discriminate.
  - unfold languages. do 7 apply Exists_cons_tl. apply Exists_cons_hd.
    exists ZeroDivisionError. vm_compute. reflexivity.
  - rewrite He. revert He. vm_compute. intros He. injection He as <-. reflexivity.
Defined.

(** X17: in the row of a language, the number found is the number of
    vacancies in the answers to the requests that the download sent (all of
    them, up to the last request of the run), whether or not they have a
    ruble salary; the same list is what the download returns. *)
Theorem found_counts_downloaded :
  (forall (language : string) (net : network Z) (fuel : nat) (r : value),
      row_hh language net fuel = Some (Ok r) ->
      exists (x : exit Z) (processed average : Z),
        run_hh language net fuel = Some (Ok x) /\
        download_vacancies_hh language net fuel
        = Some (Ok (collected net (sent (final x)))) /\
        r = PList [PStr language; PInt (len (collected net (sent (final x))));
                   PInt processed; PInt average]) /\
  (forall (language : string) (net : network bool) (fuel : nat) (r : value),
      row_sj language net fuel = Some (Ok r) ->
      exists (x : exit bool) (processed average : Z),
        run_sj language net fuel = Some (Ok x) /\
        download_vacancies_sj language net fuel
        = Some (Ok (collected net (sent (final x)))) /\
        r = PList [PStr language; PInt (len (collected net (sent (final x))));
                   PInt processed; PInt average]).
Proof.
  split; intros language net fuel r.
  - unfold row_hh, download_vacancies_hh.
    destruct (run_hh language net fuel) as [[x | e] |] eqn:Hrun;
      try discriminate.
    destruct (pages_hh_accounted language net fuel 0 1 [] start x
                (accounted_start net) Hrun) as ((Hvs & _) & _).
    cbn [option_map bind]. rewrite Hvs.
    destruct (comprehension predict_rub_salary_hh
                (collected net (sent (final x)))) as [ps | e];
      [| discriminate].
    cbn [bind]. intros H. injection H as H.
    apply get_statistics_row in H as (processed & average & -> & _).
    exists x, processed, average. split; [reflexivity |]. split; reflexivity.
  - unfold row_sj, download_vacancies_sj.
    destruct (run_sj language net fuel) as [[x | e] |] eqn:Hrun;
      try discriminate.
    destruct (pages_sj_accounted language net fuel 0 true [] start x
                (accounted_start net) Hrun) as ((Hvs & _) & _).
    cbn [option_map bind]. rewrite Hvs.
    destruct (comprehension predict_rub_salary_sj
                (collected net (sent (final x)))) as [ps | e];
      [| discriminate].
    cbn [bind]. intros H. injection H as H.
    apply get_statistics_row in H as (processed & average & -> & _).
    exists x, processed, average. split; [reflexivity |]. split; reflexivity.
Qed.

Lemma found_counts_downloaded_witness :
  let ruble :=
    PDict {[ "salary" := PDict {[ "currency" := PStr "RUR";
                                  "from" := PInt 100; "to" := PInt 200 ]} ]} in
  let none := PDict {[ "salary" := PNone ]} in
  let net : network Z :=
    fun n => match n with
             | 0%nat => Response [ruble; none] 2
             | 1%nat => ConnectionError
             | _ => Response [none] 2
             end in
  row_hh "Go" net 4 = Some (Ok (PList [PStr "Go"; PInt 3; PInt 1; PInt 150])) /\
  exists (x : exit Z) (processed average : Z),
    run_hh "Go" net 4 = Some (Ok x) /\
    download_vacancies_hh "Go" net 4
    = Some (Ok (collected net (sent (final x)))) /\
    PList [PStr "Go"; PInt 3; PInt 1; PInt 150]
    = PList [PStr "Go"; PInt (len (collected net (sent (final x))));
             PInt processed; PInt average].
Proof.
  intros ruble none net.
  assert (H : row_hh "Go" net 4
              = Some (Ok (PList [PStr "Go"; PInt 3; PInt 1; PInt 150])))
    by (vm_compute; reflexivity).
  split; [exact H |].
  exact (proj1 found_counts_downloaded "Go" net 4%nat _ H).
Defined.
